(** * Nano-PDF: page replacement and insertion ([nano_pdf/pdf_utils.py])

    A shallow embedding of the geometric and document-reconstruction core of
    [pdf_utils.py]: [_page_rotation], [_fit_page_with_padding],
    [_build_replacement_page], [replace_page_in_pdf], [batch_replace_pages]
    and [insert_page].

    Python [float]s are IEEE 754 binary64 numbers and are embedded as Rocq's
    primitive floats; Python [int]s are [Z]; raised exceptions are the
    [Raise] branch of a result type; the files on disk are a finite map from
    paths to documents. *)

From Stdlib Require Import ZArith QArith Qpower Lqa Floats.
From stdpp Require Import gmap strings list.

Local Open Scope Z_scope.

(** ** Exceptions and fallible computations *)

Inductive exn : Set :=
  | AttributeError
  | TypeError
  | ValueError
  | OverflowError
  | ZeroDivisionError
  | IndexError
  | FileNotFoundError
  | RuntimeError.

Inductive result (A : Type) : Type :=
  | Ok (a : A)
  | Raise (e : exn).

Arguments Ok {A} a.
Arguments Raise {A} e.

#[global] Instance result_ret : MRet result := @Ok.
#[global] Instance result_bind : MBind result :=
  λ A B f m, match m with Ok a => f a | Raise e => Raise e end.
#[global] Instance result_fmap : FMap result :=
  λ A B f m, match m with Ok a => Ok (f a) | Raise e => Raise e end.

(** [try: body except Exception: handler] *)
Definition try_except {A} (body : result A) (handler : result A) : result A :=
  match body with
  | Ok a => Ok a
  | Raise _ => handler
  end.

(** [for x in xs: body], threading the loop's state and stopping at the first
    exception. *)
Fixpoint for_each {A W} (xs : list A) (body : A → W → result W) (w : W) : result W :=
  match xs with
  | [] => Ok w
  | x :: xs' => w' ← body x w; for_each xs' body w'
  end.

(** [range(n)] *)
Definition range (n : nat) : list nat := seq 0 n.

(** ** Python values read from a page's rotation metadata *)

(** What [getattr(page, "rotation", 0)] or [page.get('/Rotate', 0)] may hand
    back: [None], an [int], a [float], or any other object, which is described
    by its truth value and by what [int()] does with it. *)
Inductive py_value : Set :=
  | PyNone
  | PyInt (z : Z)
  | PyFloat (f : float)
  | PyObject (truthy : bool) (as_int : result Z).

Definition py_truthy (v : py_value) : bool :=
  match v with
  | PyNone => false
  | PyInt z => negb (z =? 0)
  | PyFloat f => negb (PrimFloat.eqb f 0%float)
  | PyObject t _ => t
  end.

(** [v or d] *)
Definition py_or (v d : py_value) : py_value :=
  if py_truthy v then v else d.

(** [int(f)] for a float: truncation towards zero; [ValueError] on NaN and
    [OverflowError] on an infinity. *)
Definition int_of_float (f : float) : result Z :=
  match Prim2SF f with
  | S754_zero _ => Ok 0
  | S754_infinity _ => Raise OverflowError
  | S754_nan => Raise ValueError
  | S754_finite s m e =>
      let magnitude := Z.shiftl (Z.pos m) e in
      Ok (if s then - magnitude else magnitude)
  end.

(** [int(v)] *)
Definition py_int (v : py_value) : result Z :=
  match v with
  | PyNone => Raise TypeError
  | PyInt z => Ok z
  | PyFloat f => int_of_float f
  | PyObject _ r => r
  end.

(** ** Pages *)

(** The outcome of reading one piece of metadata off a page object. *)
Inductive attr_read : Set :=
  | Absent
  | Fails (e : exn)
  | Value (v : py_value).

Inductive transform_op : Set :=
  | Scale (sx sy : float)
  | Translate (tx ty : float).

(** A [Transformation] is the sequence of elementary operations it was built
    from, in the order they apply to the content. *)
Definition Transformation : Set := list transform_op.

Definition Transformation_scale (ctm : Transformation) (s : float) : Transformation :=
  ctm ++ [Scale s s].
Definition Transformation_translate (ctm : Transformation) (tx ty : float) : Transformation :=
  ctm ++ [Translate tx ty].

Inductive content : Set :=
  | Blank
  | Stream (name : string)
  | Transformed (ctm : Transformation) (c : content)
  | Merged (below above : content).

Record RectangleObject : Set := { width : float; height : float }.

Record PageObject : Set := {
  mediabox : RectangleObject;
  rotation : attr_read;      (* what reading [page.rotation] does *)
  Rotate : attr_read;        (* what [page.get('/Rotate', _)] does *)
  contents : content
}.

(** [getattr(page, "rotation", default)]: the default stands in for a missing
    attribute, and for an accessor that raises [AttributeError]. *)
Definition getattr_rotation (page : PageObject) (default : py_value) : result py_value :=
  match rotation page with
  | Absent => Ok default
  | Fails AttributeError => Ok default
  | Fails e => Raise e
  | Value v => Ok v
  end.

(** [page.get('/Rotate', default)] *)
Definition get_Rotate (page : PageObject) (default : py_value) : result py_value :=
  match Rotate page with
  | Absent => Ok default
  | Fails e => Raise e
  | Value v => Ok v
  end.

(** pypdf's [PageObject.create_blank_page(width=, height=)]: an empty page with
    the given box and no [/Rotate] entry, so that its [rotation] reads 0. *)
Definition create_blank_page (w h : float) : PageObject :=
  {| mediabox := {| width := w; height := h |};
     rotation := Value (PyInt 0);
     Rotate := Absent;
     contents := Blank |}.

(** pypdf's [canvas.merge_page(page2)]: the content of [page2] is drawn over
    the canvas; box and rotation of the canvas stay. *)
Definition merge_page (canvas page2 : PageObject) : PageObject :=
  {| mediabox := mediabox canvas;
     rotation := rotation canvas;
     Rotate := Rotate canvas;
     contents := Merged (contents canvas) (contents page2) |}.

(** pypdf's [page.add_transformation(ctm)]: the page's content under [ctm]. *)
Definition add_transformation (page : PageObject) (ctm : Transformation) : PageObject :=
  {| mediabox := mediabox page;
     rotation := rotation page;
     Rotate := Rotate page;
     contents := Transformed ctm (contents page) |}.

(** ** [_page_rotation] *)

Definition _page_rotation (page : PageObject) : result Z :=
  rot ← try_except
          (v ← getattr_rotation page (PyInt 0); py_int (py_or v (PyInt 0)))
          (try_except
             (v ← get_Rotate page (PyInt 0); py_int (py_or v (PyInt 0)))
             (Ok 0));
  Ok (rot `mod` 360).

(** ** Arithmetic of the aspect fit

    The scale and the offsets are computed by the same expressions whatever
    the numbers are; [Arith] names the operations those expressions use, so
    that they can be read in binary64 (what the program runs) and in exact
    rational arithmetic. Division raises [ZeroDivisionError] on a zero
    divisor, as Python's does. *)

Class Arith (A : Type) := {
  a_div : A → A → result A;
  a_mul : A → A → A;
  a_sub : A → A → A;
  a_ltb : A → A → bool;
  a_two : A
}.

Definition float_div (x y : float) : result float :=
  if PrimFloat.eqb y 0%float then Raise ZeroDivisionError else Ok (x / y)%float.

#[global] Instance float_arith : Arith float := {|
  a_div := float_div;
  a_mul := PrimFloat.mul;
  a_sub := PrimFloat.sub;
  a_ltb := PrimFloat.ltb;
  a_two := 2%float
|}.

Definition Q_div (x y : Q) : result Q :=
  if Qeq_bool y 0 then Raise ZeroDivisionError else Ok (x / y)%Q.

#[global] Instance Q_arith : Arith Q := {|
  a_div := Q_div;
  a_mul := Qmult;
  a_sub := Qminus;
  a_ltb := λ x y, negb (Qle_bool y x);
  a_two := 2%Q
|}.

(** [min(a, b)]: the first argument unless the second is smaller. *)
Definition py_min `{Arith A} (a b : A) : A :=
  if a_ltb b a then b else a.

(** Lines 126-130 of [_fit_page_with_padding]: the scale and the two offsets. *)
Definition fit_geometry `{Arith A} (src_w src_h target_width target_height : A)
  : result (A * A * A) :=
  ratio_w ← a_div target_width src_w;
  ratio_h ← a_div target_height src_h;
  let scale := py_min ratio_w ratio_h in
  let scaled_w := a_mul src_w scale in
  let scaled_h := a_mul src_h scale in
  tx ← a_div (a_sub target_width scaled_w) a_two;
  ty ← a_div (a_sub target_height scaled_h) a_two;
  Ok (scale, tx, ty).

(** ** [_fit_page_with_padding] *)

Definition _fit_page_with_padding (source_page : PageObject)
    (target_width target_height : float) : result PageObject :=
  let src_w := width (mediabox source_page) in
  let src_h := height (mediabox source_page) in
  if PrimFloat.leb src_w 0%float || PrimFloat.leb src_h 0%float then
    let canvas := create_blank_page target_width target_height in
    Ok (merge_page canvas source_page)
  else
    '(scale, tx, ty) ← fit_geometry src_w src_h target_width target_height;
    let canvas := create_blank_page target_width target_height in
    let source_page :=
      add_transformation source_page
        (Transformation_translate (Transformation_scale [] scale) tx ty) in
    Ok (merge_page canvas source_page).

(** ** [_build_replacement_page] *)

Definition _build_replacement_page (original_page new_page : PageObject)
  : result PageObject :=
  let target_w := width (mediabox original_page) in
  let target_h := height (mediabox original_page) in
  rot ← _page_rotation original_page;
  let '(visual_w, visual_h) :=
    if (rot =? 90) || (rot =? 270) then (target_h, target_w)
    else (target_w, target_h) in
  _fit_page_with_padding new_page visual_w visual_h.

(** ** Documents and files *)

(** [PdfReader(path)]: the pages of the document stored at [path]. *)
Definition PdfReader (fs : gmap string (list PageObject)) (path : string)
  : result (list PageObject) :=
  match fs !! path with
  | Some pages => Ok pages
  | None => Raise FileNotFoundError
  end.

(** [pages[i]] for [i >= 0] *)
Definition getitem (pages : list PageObject) (i : nat) : result PageObject :=
  match pages !! i with
  | Some p => Ok p
  | None => Raise IndexError
  end.

(** [writer.add_page(page)] *)
Definition add_page (writer : list PageObject) (page : PageObject) : list PageObject :=
  writer ++ [page].

(** [with open(output_pdf_path, 'wb') as f: writer.write(f)] *)
Definition write (fs : gmap string (list PageObject)) (output_pdf_path : string)
    (writer : list PageObject) : gmap string (list PageObject) :=
  <[output_pdf_path := writer]> fs.

(** ** [replace_page_in_pdf] *)

Definition replace_page_in_pdf (fs : gmap string (list PageObject))
    (original_pdf_path new_page_pdf_path : string) (page_number : Z)
    (output_pdf_path : string) : result (gmap string (list PageObject)) :=
  reader ← PdfReader fs original_pdf_path;
  writer ← for_each (range (length reader)) (λ i writer,
    if Z.of_nat i =? page_number - 1 then
      original_page ← getitem reader i;
      new_reader ← PdfReader fs new_page_pdf_path;
      new_page ← getitem new_reader 0;
      page ← _build_replacement_page original_page new_page;
      Ok (add_page writer page)
    else
      page ← getitem reader i;
      Ok (add_page writer page)) [];
  Ok (write fs output_pdf_path writer).

(** ** [batch_replace_pages] *)

Definition batch_replace_pages (fs : gmap string (list PageObject))
    (original_pdf_path : string) (replacements : gmap Z string)
    (output_pdf_path : string) : result (gmap string (list PageObject)) :=
  reader ← PdfReader fs original_pdf_path;
  writer ← for_each (range (length reader)) (λ i writer,
    let page_num := Z.of_nat i + 1 in
    match replacements !! page_num with
    | Some new_pdf_path =>
        original_page ← getitem reader i;
        new_reader ← PdfReader fs new_pdf_path;
        new_page ← getitem new_reader 0;
        page ← _build_replacement_page original_page new_page;
        Ok (add_page writer page)
    | None =>
        page ← getitem reader i;
        Ok (add_page writer page)
    end) [];
  Ok (write fs output_pdf_path writer).

(** ** [insert_page] *)

Definition insert_page (fs : gmap string (list PageObject))
    (original_pdf_path new_page_pdf_path : string) (after_page : Z)
    (output_pdf_path : string) : result (gmap string (list PageObject)) :=
  reader ← PdfReader fs original_pdf_path;
  reference_page ← getitem reader 0;
  new_reader ← PdfReader fs new_page_pdf_path;
  new_page ← getitem new_reader 0;
  prepared_new_page ← _build_replacement_page reference_page new_page;
  let writer := if after_page =? 0 then add_page [] prepared_new_page else [] in
  writer ← for_each (range (length reader)) (λ i writer,
    page ← getitem reader i;
    let writer := add_page writer page in
    Ok (if Z.of_nat i + 1 =? after_page then add_page writer prepared_new_page
        else writer)) writer;
  Ok (write fs output_pdf_path writer).

(** ** [get_page_count] *)

Definition get_page_count (fs : gmap string (list PageObject)) (pdf_path : string)
  : result nat :=
  reader ← PdfReader fs pdf_path;
  Ok (length reader).

(** ** Python strings

    A Python [str] is a sequence of Unicode code points. *)

Abbreviation str := (list N).

(** The code points of an ASCII literal. *)
Definition str_of (s : string) : str :=
  map Ascii.N_of_ascii (String.list_ascii_of_string s).

Definition LF : N := 10.
Definition FF : N := 12.

(** Whitespace as [str.strip()] sees it ([str.isspace] on one code point). *)
Definition isspace (c : N) : bool :=
  ((9 <=? c) && (c <=? 13) || (28 <=? c) && (c <=? 32)
   || (c =? 133) || (c =? 160) || (c =? 5760)
   || (8192 <=? c) && (c <=? 8202)
   || (c =? 8232) || (c =? 8233) || (c =? 8239) || (c =? 8287)
   || (c =? 12288))%N.

Fixpoint lstrip (s : str) : str :=
  match s with
  | [] => []
  | c :: s' => if isspace c then lstrip s' else s
  end.

Definition rstrip (s : str) : str := reverse (lstrip (reverse s)).

(** [s.strip()] *)
Definition strip (s : str) : str := rstrip (lstrip s).

(** [s.split(sep)] for a one-character separator: never an empty list. *)
Fixpoint split (sep : N) (s : str) : list str :=
  match s with
  | [] => [[]]
  | c :: s' =>
      if (c =? sep)%N then [] :: split sep s'
      else match split sep s' with
           | seg :: segs => (c :: seg) :: segs
           | [] => [[c]]
           end
  end.

(** [sep.join(parts)] *)
Fixpoint join (sep : str) (parts : list str) : str :=
  match parts with
  | [] => []
  | [part] => part
  | part :: parts' => part ++ sep ++ join sep parts'
  end.

Fixpoint digits (d : Decimal.uint) : str :=
  match d with
  | Decimal.Nil => []
  | Decimal.D0 d' => 48%N :: digits d'
  | Decimal.D1 d' => 49%N :: digits d'
  | Decimal.D2 d' => 50%N :: digits d'
  | Decimal.D3 d' => 51%N :: digits d'
  | Decimal.D4 d' => 52%N :: digits d'
  | Decimal.D5 d' => 53%N :: digits d'
  | Decimal.D6 d' => 54%N :: digits d'
  | Decimal.D7 d' => 55%N :: digits d'
  | Decimal.D8 d' => 56%N :: digits d'
  | Decimal.D9 d' => 57%N :: digits d'
  end.

(** [str(n)] for a non-negative [int], as an f-string renders it. *)
Definition str_of_nat (n : nat) : str := digits (Nat.to_uint n).

(** [enumerate(xs)] *)
Definition enumerate {A} (xs : list A) : list (nat * A) :=
  imap (λ i x, (i, x)) xs.

(** ** [extract_full_text] *)

(** What [subprocess.run([...], capture_output=True, text=True, check=True)]
    does: it completes with the text written to standard output, raises
    [CalledProcessError] on a non-zero exit status, or raises something
    else (the program is not installed, the output does not decode). *)
Inductive run_outcome : Set :=
  | Completed (stdout : str)
  | CalledProcessError
  | RunRaises (e : exn).

(** Lines 68-70: the text of one page, cut after 2000 code points. *)
Definition truncate (clean_text : str) : str :=
  if (2000 <? length clean_text)%nat
  then take 2000 clean_text ++ str_of "...[truncated]"
  else clean_text.

(** Line 73: [f"<page-{n}>\n{clean_text}\n</page-{n}>"] *)
Definition page_block (n : nat) (clean_text : str) : str :=
  str_of "<page-" ++ str_of_nat n ++ str_of ">" ++ [LF]
  ++ clean_text ++ [LF] ++ str_of "</page-" ++ str_of_nat n ++ str_of ">".

(** Lines 57-73: the loop over the pages of the raw text. *)
Definition formatted_pages (raw_text : str) : list str :=
  let pages := split FF raw_text in
  foldl (λ formatted_pages '(i, page_text),
           match strip page_text with
           | [] => formatted_pages
           | _ =>
               let clean_text := strip page_text in
               let clean_text := truncate clean_text in
               formatted_pages ++ [page_block (i + 1) clean_text]
           end)
        [] (enumerate pages).

(** The value [extract_full_text] returns; the message it prints on
    [CalledProcessError] is left out. *)
Definition extract_full_text (run : run_outcome) : result str :=
  match run with
  | Completed raw_text =>
      Ok (str_of "<document_context>" ++ [LF]
          ++ join [LF] (formatted_pages raw_text)
          ++ [LF] ++ str_of "</document_context>")
  | CalledProcessError => Ok []
  | RunRaises e => Raise e
  end.

(** ** [check_system_dependencies] *)

Definition newline : string := String (Ascii.ascii_of_nat 10) "".

(** [not shutil.which(name)]: nothing found (or an empty path). *)
Definition not_found (which : string → option string) (name : string) : bool :=
  match which name with
  | None => true
  | Some path => bool_decide (path = "")
  end.

(** [", ".join(missing)] *)
Fixpoint join_names (missing : list string) : string :=
  match missing with
  | [] => ""
  | [name] => name
  | name :: missing' => name +:+ ", " +:+ join_names missing'
  end.

Definition install_cmd (os_name : string) : string :=
  if bool_decide (os_name = "darwin") then "brew install poppler tesseract"
  else if bool_decide (os_name = "posix")
       then "sudo apt-get install poppler-utils tesseract-ocr"
       else "choco install poppler tesseract" +:+ newline
            +:+ "(You may need to restart your terminal after installation)".

(** [None] when the function returns, [Some message] when it raises
    [RuntimeError(message)]. *)
Definition check_system_dependencies (which : string → option string)
    (os_name : string) : option string :=
  let missing := [] in
  let missing :=
    if not_found which "pdftotext"
    then missing ++ ["pdftotext (poppler/poppler-utils)"] else missing in
  let missing :=
    if not_found which "tesseract" then missing ++ ["tesseract"] else missing in
  match missing with
  | [] => None
  | _ =>
      let deps_str := join_names missing in
      Some ("Missing system dependencies: " +:+ deps_str +:+ newline +:+ newline
            +:+ "Installation:" +:+ newline +:+ install_cmd os_name
            +:+ newline +:+ newline
            +:+ "See https://github.com/gavrielc/Nano-PDF#readme for more details.")
  end.

(** ** Vocabulary of the statements *)

(** What a loop over the positions of [pages] writes when iteration [i], on
    page [p], appends [g i p]. *)
Fixpoint emit_pages {B C} (g : nat → B → list C) (s : nat) (pages : list B) : list C :=
  match pages with
  | [] => []
  | p :: pages' => g s p ++ emit_pages g (S s) pages'
  end.

(** The size a viewer shows [original_page] at when its rotation is [rot]:
    the declared box, its sides swapped for 90 and 270 degrees. *)
Definition visual_box (original_page : PageObject) (rot : Z) : RectangleObject :=
  if (rot =? 90) || (rot =? 270)
  then {| width := height (mediabox original_page);
          height := width (mediabox original_page) |}
  else {| width := width (mediabox original_page);
          height := height (mediabox original_page) |}.

(** [page] with its [rotation] attribute reading as the integer [z]. *)
Definition with_rotation (page : PageObject) (z : Z) : PageObject :=
  {| mediabox := mediabox page;
     rotation := Value (PyInt z);
     Rotate := Rotate page;
     contents := contents page |}.

(** [int(v or 0)] succeeds with [z]. *)
Definition numeric (v : py_value) (z : Z) : Prop :=
  py_int (py_or v (PyInt 0)) = Ok z.

(** [int(v or 0)] raises. *)
Definition non_numeric (v : py_value) : Prop :=
  ∃ e, py_int (py_or v (PyInt 0)) = Raise e.

(** The rational number a finite binary64 value stands for. *)
Definition Q_of_float (f : float) : option Q :=
  match Prim2SF f with
  | S754_zero _ => Some 0%Q
  | S754_finite s m e =>
      Some (inject_Z (if s then Z.neg m else Z.pos m) * 2 ^ e)%Q
  | S754_infinity _ | S754_nan => None
  end.

(** The pages an insertion writes: [prepared] after the first [after_page]
    pages when [0 <= after_page <= pageCount], and the pages alone
    otherwise. *)
Definition inserted (pages : list PageObject) (after_page : Z)
    (prepared : PageObject) : list PageObject :=
  if decide (0 ≤ after_page ≤ Z.of_nat (length pages))
  then take (Z.to_nat after_page) pages ++ prepared :: drop (Z.to_nat after_page) pages
  else pages.

(** What a batch replacement leaves at position [i] of [writer], where the
    original has page [p]: [p] itself when [i + 1] is no key, and otherwise the
    page composed from [p] and the first page of the document the key names. *)
Definition written_at (fs : gmap string (list PageObject))
    (replacements : gmap Z string) (writer : list PageObject) (i : nat)
    (p : PageObject) : Prop :=
  match replacements !! (Z.of_nat i + 1) with
  | None => writer !! i = Some p
  | Some path =>
      ∃ new_reader new_page composed,
        fs !! path = Some new_reader
        ∧ new_reader !! 0%nat = Some new_page
        ∧ _build_replacement_page p new_page = Ok composed
        ∧ writer !! i = Some composed
  end.

(** The block [extract_full_text] writes for the page at position [i] of the
    raw text, if any. *)
Definition block_of (i : nat) (page_text : str) : option str :=
  match strip page_text with
  | [] => None
  | _ => Some (page_block (i + 1) (truncate (strip page_text)))
  end.

(** ** Sample pages and documents *)

(** A page with a degenerate box. *)
Definition zero_width_page : PageObject :=
  {| mediabox := {| width := 0; height := 50 |};
     rotation := Absent; Rotate := Absent; contents := Stream "scan" |}.

(** A page whose [rotation] accessor raises while its raw [/Rotate] entry is
    the integer 90. *)
Definition unreadable_rotation_page : PageObject :=
  {| mediabox := {| width := 612; height := 792 |};
     rotation := Fails RuntimeError;
     Rotate := Value (PyInt 90);
     contents := Stream "page" |}.

(** A page whose [rotation] is an object that [int()] rejects, over the same
    raw entry. *)
Definition garbled_rotation_page : PageObject :=
  {| mediabox := {| width := 612; height := 792 |};
     rotation := Value (PyObject true (Raise ValueError));
     Rotate := Value (PyInt 90);
     contents := Stream "page" |}.

(** A square 90 x 90 page. *)
Definition square_page : PageObject :=
  {| mediabox := {| width := 90; height := 90 |};
     rotation := Absent; Rotate := Absent; contents := Stream "stamp" |}.

(** A landscape 100 x 50 page, used as replacement content. *)
Definition business_card : PageObject :=
  {| mediabox := {| width := 100; height := 50 |};
     rotation := Absent; Rotate := Absent; contents := Stream "card" |}.

(** An upright US Letter page. *)
Definition letter (name : string) : PageObject :=
  {| mediabox := {| width := 612; height := 792 |};
     rotation := Value (PyInt 0); Rotate := Absent;
     contents := Stream name |}.

Definition five_pages : list PageObject :=
  [letter "p1"; letter "p2"; letter "p3"; letter "p4"; letter "p5"].

(** A five-page original next to a one-page replacement. *)
Definition demo_fs : gmap string (list PageObject) :=
  <["original.pdf" := five_pages]> (<["new.pdf" := [business_card]]> ∅).

(** The business card composed for a 612 x 792 slot. *)
Definition prepared_card : PageObject :=
  {| mediabox := {| width := 612; height := 792 |};
     rotation := Value (PyInt 0);
     Rotate := Absent;
     contents :=
       Merged Blank
         (Transformed
            [Scale (612 / 100)%float (612 / 100)%float;
             Translate ((612 - 100 * (612 / 100)) / 2)%float
                       ((792 - 50 * (612 / 100)) / 2)%float]
            (Stream "card")) |}.

(** The original next to two replacement documents. *)
Definition batch_fs : gmap string (list PageObject) :=
  <["original.pdf" := five_pages]>
    (<["a.pdf" := [business_card]]> (<["b.pdf" := [zero_width_page]]> ∅)).

(** A Letter page stored sideways. *)
Definition sideways_letter : PageObject :=
  {| mediabox := {| width := 612; height := 792 |};
     rotation := Value (PyInt 90); Rotate := Value (PyInt 90);
     contents := Stream "wide" |}.

(** A two-page document that ends with the sideways page. *)
Definition mixed_fs : gmap string (list PageObject) :=
  <["original.pdf" := [letter "p1"; sideways_letter]]>
    (<["new.pdf" := [business_card]]> ∅).

(** Three pages, the second blank. *)
Definition three_pages_text : str :=
  str_of "hello" ++ [FF] ++ str_of "  " ++ [FF] ++ str_of " x y ".

(** * Properties *)

(** ** The result monad and the loop *)

Lemma bind_Ok {A B} (m : result A) (f : A → result B) (b : B) :
  m ≫= f = Ok b → ∃ a, m = Ok a ∧ f a = Ok b.
Proof. destruct m as [a|e]; [eauto | discriminate]. Qed.

Lemma try_except_Ok {A} (body handler : result A) :
  (∃ a, handler = Ok a) → ∃ a, try_except body handler = Ok a.
Proof. intros [a Ha]. destruct body; simpl; eauto. Qed.

(** Loop invariant rule for [for i in range(n)]: [P i w] holds of the state
    [w] before iteration [i]. *)
Lemma for_range_invariant {W} (P : nat → W → Prop)
    (body : nat → W → result W) (n : nat) (w0 w : W) :
  P 0%nat w0 →
  (∀ i w1 w2, (i < n)%nat → P i w1 → body i w1 = Ok w2 → P (S i) w2) →
  for_each (range n) body w0 = Ok w →
  P n w.
Proof.
  intros H0 Hstep. unfold range.
  assert (Hgen : ∀ len s w1,
             (s + len = n)%nat → P s w1 →
             for_each (seq s len) body w1 = Ok w → P n w).
  { induction len as [|len IH]; intros s w1 Hs HP Hrun; simpl in Hrun.
    - replace n with s by lia. congruence.
    - apply bind_Ok in Hrun as (w2 & Hbody & Hrun).
      apply (IH (S s) w2); [lia | | done].
      apply (Hstep s w1); [lia | done | done]. }
  apply (Hgen n 0%nat w0); [lia | done].
Qed.

(** A loop none of whose iterations raises runs to its end. *)
Lemma for_each_total {A W} (xs : list A) (body : A → W → result W) (w0 : W) :
  (∀ x w, x ∈ xs → ∃ w', body x w = Ok w') →
  ∃ w, for_each xs body w0 = Ok w.
Proof.
  revert w0. induction xs as [|x xs IH]; intros w0 Hbody; simpl; [eauto|].
  destruct (Hbody x w0) as [w' Hw']; [apply list_elem_of_here|].
  rewrite Hw'. simpl. apply IH.
  intros y w Hy. apply Hbody. by apply list_elem_of_further.
Qed.

Lemma for_each_pages {B C} (pages : list B) (g : nat → B → list C)
    (body : nat → list C → result (list C)) (w0 : list C) :
  (∀ i p w, pages !! i = Some p → body i w = Ok (w ++ g i p)) →
  for_each (range (length pages)) body w0 = Ok (w0 ++ emit_pages g 0 pages).
Proof.
  intros Hbody. unfold range.
  assert (Hgen : ∀ len s w1,
             (s + len = length pages)%nat →
             for_each (seq s len) body w1
             = Ok (w1 ++ emit_pages g s (drop s pages))).
  { induction len as [|len IH]; intros s w1 Hs; simpl.
    - rewrite drop_ge by lia. simpl. by rewrite app_nil_r.
    - destruct (lookup_lt_is_Some_2 pages s) as [p Hp]; [lia|].
      rewrite (Hbody s p w1 Hp). simpl.
      rewrite IH by lia. rewrite (drop_S pages p s Hp). simpl.
      by rewrite app_assoc. }
  rewrite (Hgen (length pages) 0%nat w0) by lia. by rewrite drop_0.
Qed.

Lemma emit_pages_copy {B} (s : nat) (pages : list B) :
  emit_pages (λ _ p, [p]) s pages = pages.
Proof.
  revert s. induction pages as [|p pages IH]; intros s; simpl; [done|].
  by rewrite IH.
Qed.

Lemma getitem_lookup (pages : list PageObject) (i : nat) (p : PageObject) :
  pages !! i = Some p → getitem pages i = Ok p.
Proof. unfold getitem. by intros ->. Qed.

(** ** Binary64 comparisons against zero *)

Lemma float_eqb_leb (x y : float) :
  PrimFloat.eqb x y = true → PrimFloat.leb x y = true.
Proof.
  rewrite FloatAxioms.eqb_spec, FloatAxioms.leb_spec. unfold SFeqb, SFleb.
  destruct (SFcompare _ _) as [[]|]; congruence.
Qed.

Lemma float_pos_not_leb (x : float) :
  PrimFloat.ltb 0%float x = true → PrimFloat.leb x 0%float = false.
Proof.
  rewrite FloatAxioms.ltb_spec, FloatAxioms.leb_spec. unfold SFltb, SFleb.
  change (Prim2SF 0%float) with (S754_zero false).
  destruct (Prim2SF x) as [s|s| |s m e]; simpl; try destruct s; congruence.
Qed.

Lemma float_div_nonzero (x y : float) :
  PrimFloat.leb y 0%float = false → float_div x y = Ok (x / y)%float.
Proof.
  intros Hy. unfold float_div.
  destruct (PrimFloat.eqb y 0%float) eqn:E; [|done].
  apply float_eqb_leb in E. congruence.
Qed.

(** ** The aspect fit never raises *)

Lemma fit_geometry_float (src_w src_h target_width target_height : float) :
  PrimFloat.leb src_w 0%float = false →
  PrimFloat.leb src_h 0%float = false →
  let scale := py_min (target_width / src_w)%float (target_height / src_h)%float in
  fit_geometry src_w src_h target_width target_height
  = Ok (scale,
        ((target_width - src_w * scale) / 2)%float,
        ((target_height - src_h * scale) / 2)%float).
Proof.
  intros Hw Hh. unfold fit_geometry. simpl a_div.
  rewrite (float_div_nonzero _ _ Hw), (float_div_nonzero _ _ Hh). simpl.
  reflexivity.
Qed.

Lemma _fit_page_with_padding_box (source_page : PageObject)
    (target_width target_height : float) :
  ∃ page, _fit_page_with_padding source_page target_width target_height = Ok page
          ∧ mediabox page = {| width := target_width; height := target_height |}
          ∧ rotation page = Value (PyInt 0)
          ∧ Rotate page = Absent.
Proof.
  unfold _fit_page_with_padding.
  destruct (PrimFloat.leb (width (mediabox source_page)) 0%float) eqn:Hw; simpl.
  { eexists; split; [reflexivity | done]. }
  destruct (PrimFloat.leb (height (mediabox source_page)) 0%float) eqn:Hh; simpl.
  { eexists; split; [reflexivity | done]. }
  rewrite (fit_geometry_float _ _ _ _ Hw Hh). simpl.
  eexists; split; [reflexivity | done].
Qed.

(** ** Rotation is always read *)

Lemma _page_rotation_range (page : PageObject) :
  ∃ rot, _page_rotation page = Ok rot ∧ 0 ≤ rot < 360.
Proof.
  unfold _page_rotation.
  destruct (try_except_Ok
              (getattr_rotation page (PyInt 0) ≫= λ v, py_int (py_or v (PyInt 0)))
              (try_except
                 (get_Rotate page (PyInt 0) ≫= λ v, py_int (py_or v (PyInt 0)))
                 (Ok 0))) as [rot Hrot].
  { apply try_except_Ok. eauto. }
  rewrite Hrot. simpl. eexists; split; [reflexivity|].
  apply Z.mod_pos_bound. lia.
Qed.

Lemma _page_rotation_int (page : PageObject) (z : Z) :
  rotation page = Value (PyInt z) → _page_rotation page = Ok (z `mod` 360).
Proof.
  intros Hr. unfold _page_rotation, getattr_rotation. rewrite Hr. simpl.
  unfold py_or. simpl. destruct (z =? 0) eqn:E; simpl; [|done].
  apply Z.eqb_eq in E. by subst.
Qed.

Lemma _build_replacement_page_fit (original_page new_page : PageObject) (rot : Z) :
  _page_rotation original_page = Ok rot →
  _build_replacement_page original_page new_page
  = _fit_page_with_padding new_page
      (width (visual_box original_page rot)) (height (visual_box original_page rot)).
Proof.
  intros Hrot. unfold _build_replacement_page, visual_box. rewrite Hrot. simpl.
  by destruct ((rot =? 90) || (rot =? 270)).
Qed.

Lemma _build_replacement_page_Ok (original_page new_page : PageObject) :
  ∃ page, _build_replacement_page original_page new_page = Ok page.
Proof.
  destruct (_page_rotation_range original_page) as (rot & Hrot & _).
  rewrite (_build_replacement_page_fit _ _ _ Hrot).
  destruct (_fit_page_with_padding_box new_page
              (width (visual_box original_page rot))
              (height (visual_box original_page rot))) as (page & Hfit & _).
  eauto.
Qed.

(** ** The visual footprint *)

(** C1. For every original page and replacement page,
    [_build_replacement_page] reads [rot = _page_rotation original_page] and
    fits the replacement into the original's visual size, which is the
    declared box with its sides swapped when [rot] is 90 or 270 and the
    declared box otherwise ([visual_box]); the page it returns has exactly
    that box, and its rotation attribute is 0 whatever the original's was. *)
Theorem build_replacement_page_visual_size (original_page new_page : PageObject) :
  ∃ rot page,
    _page_rotation original_page = Ok rot
    ∧ _build_replacement_page original_page new_page = Ok page
    ∧ _fit_page_with_padding new_page
        (width (visual_box original_page rot))
        (height (visual_box original_page rot)) = Ok page
    ∧ mediabox page = visual_box original_page rot
    ∧ rotation page = Value (PyInt 0)
    ∧ _page_rotation page = Ok 0.
Proof.
  destruct (_page_rotation_range original_page) as (rot & Hrot & _).
  destruct (_fit_page_with_padding_box new_page
              (width (visual_box original_page rot))
              (height (visual_box original_page rot)))
    as (page & Hfit & Hbox & Hrotation & _).
  exists rot, page. repeat split; try done.
  - by rewrite (_build_replacement_page_fit _ _ _ Hrot).
  - rewrite Hbox. by destruct (visual_box original_page rot).
  - by apply (_page_rotation_int page 0).
Qed.

(** A page declared 612 x 792 with rotation 90 is fitted against 792 x 612. *)
Example visual_box_letter_rotated (c : content) (r : attr_read) :
  visual_box {| mediabox := {| width := 612; height := 792 |};
                rotation := Value (PyInt 90); Rotate := r; contents := c |} 90
  = {| width := 792; height := 612 |}.
Proof. reflexivity. Qed.

(** ** The degenerate source page *)

(** C8. For every source page whose declared width or height is <= 0 and
    every target size, [_fit_page_with_padding] does not raise (in particular
    no [ZeroDivisionError]): it computes no scale and returns a blank canvas
    of exactly the target size with the source's content merged onto it
    untransformed. *)
Theorem fit_page_degenerate_source (source_page : PageObject)
    (target_width target_height : float) :
  PrimFloat.leb (width (mediabox source_page)) 0%float = true
  ∨ PrimFloat.leb (height (mediabox source_page)) 0%float = true →
  _fit_page_with_padding source_page target_width target_height
  = Ok {| mediabox := {| width := target_width; height := target_height |};
          rotation := Value (PyInt 0);
          Rotate := Absent;
          contents := Merged Blank (contents source_page) |}.
Proof.
  intros Hdeg. unfold _fit_page_with_padding.
  replace (PrimFloat.leb (width (mediabox source_page)) 0%float
           || PrimFloat.leb (height (mediabox source_page)) 0%float) with true.
  - reflexivity.
  - symmetry. apply orb_true_iff. exact Hdeg.
Qed.

Lemma fit_page_degenerate_source_witness :
  _fit_page_with_padding zero_width_page 400 400
  = Ok {| mediabox := {| width := 400; height := 400 |};
          rotation := Value (PyInt 0);
          Rotate := Absent;
          contents := Merged Blank (Stream "scan") |}.
Proof.
  apply (fit_page_degenerate_source zero_width_page 400 400).
  left. reflexivity.
Defined.

(** Without the guard the zero width would be a divisor. *)
Example fit_geometry_zero_width :
  fit_geometry 0%float 50%float 400%float 400%float = Raise ZeroDivisionError.
Proof. reflexivity. Qed.

(** ** Range of the normalized rotation *)

(** C10. [_page_rotation] is total and its result lies in [0, 360): no page
    makes it raise; an integer rotation [z], negative ones included, is
    reduced to the non-negative residue [z mod 360]; a stored -90 normalizes
    to 270 and so takes the 90/270 branch of [_build_replacement_page], which
    swaps the sides of the box. *)
Theorem page_rotation_total_in_range (page new_page : PageObject) (z : Z) :
  (∃ rot, _page_rotation page = Ok rot ∧ 0 ≤ rot < 360)
  ∧ _page_rotation (with_rotation page z) = Ok (z `mod` 360)
  ∧ 0 ≤ z `mod` 360 < 360
  ∧ _page_rotation (with_rotation page (-90)) = Ok 270
  ∧ ∃ composed,
      _build_replacement_page (with_rotation page (-90)) new_page = Ok composed
      ∧ mediabox composed = {| width := height (mediabox page);
                               height := width (mediabox page) |}.
Proof.
  split; [apply _page_rotation_range|].
  split; [by apply _page_rotation_int|].
  split; [apply Z.mod_pos_bound; lia|].
  assert (H270 : _page_rotation (with_rotation page (-90)) = Ok 270)
    by exact (_page_rotation_int (with_rotation page (-90)) (-90) eq_refl).
  split; [exact H270|].
  rewrite (_build_replacement_page_fit _ _ _ H270).
  destruct (_fit_page_with_padding_box new_page
              (width (visual_box (with_rotation page (-90)) 270))
              (height (visual_box (with_rotation page (-90)) 270)))
    as (composed & Hfit & Hbox & _).
  exists composed. split; [exact Hfit|]. rewrite Hbox. reflexivity.
Qed.

(** ** Reading the rotation: the fallback to the raw entry *)

(** C9, as stated, fails: when reading the rotation attribute raises, or the
    attribute is a non-numeric object, the result is not 0 if the raw
    [/Rotate] entry holds a number. *)
Lemma page_rotation_default_counterexample :
  (rotation unreadable_rotation_page = Fails RuntimeError
   ∧ _page_rotation unreadable_rotation_page = Ok 90
   ∧ _page_rotation unreadable_rotation_page ≠ Ok 0)
  ∧ (non_numeric (PyObject true (Raise ValueError))
     ∧ _page_rotation garbled_rotation_page = Ok 90
     ∧ _page_rotation garbled_rotation_page ≠ Ok 0).
Proof.
  repeat split; try reflexivity; try discriminate.
  exists ValueError. reflexivity.
Qed.

(** C9 (amended). [_page_rotation] never raises. It returns the page's
    rotation attribute reduced modulo 360 when that reads as a number, with no
    restriction to the right angles (45 yields 45), and 0 when the attribute
    is absent. When the attribute is non-numeric or reading it raises, it
    falls back to the raw [/Rotate] entry: that entry modulo 360 when it is a
    number, and 0 when it is absent, unreadable or non-numeric as well. *)
Theorem page_rotation_fallback (page : PageObject) :
  (∃ rot, _page_rotation page = Ok rot)
  ∧ (∀ v z, rotation page = Value v → numeric v z →
       _page_rotation page = Ok (z `mod` 360))
  ∧ _page_rotation (with_rotation page 45) = Ok 45
  ∧ (rotation page = Absent ∨ rotation page = Fails AttributeError →
       _page_rotation page = Ok 0)
  ∧ ((∃ v, rotation page = Value v ∧ non_numeric v)
     ∨ (∃ e, rotation page = Fails e ∧ e ≠ AttributeError) →
       (∀ v z, Rotate page = Value v → numeric v z →
          _page_rotation page = Ok (z `mod` 360))
       ∧ (Rotate page = Absent
          ∨ (∃ e, Rotate page = Fails e)
          ∨ (∃ v, Rotate page = Value v ∧ non_numeric v) →
            _page_rotation page = Ok 0)).
Proof.
  split.
  { destruct (_page_rotation_range page) as (rot & Hrot & _). eauto. }
  split.
  { intros v z Hr Hv. unfold _page_rotation, getattr_rotation. rewrite Hr.
    simpl. unfold numeric in Hv. rewrite Hv. reflexivity. }
  split; [reflexivity|].
  split.
  { intros [Hr|Hr]; unfold _page_rotation, getattr_rotation; rewrite Hr;
      reflexivity. }
  intros Hprimary.
  assert (Hfall : _page_rotation page
                  = (try_except
                       (get_Rotate page (PyInt 0) ≫= λ v, py_int (py_or v (PyInt 0)))
                       (Ok 0)) ≫= λ rot, Ok (rot `mod` 360)).
  { unfold _page_rotation, getattr_rotation.
    destruct Hprimary as [(v & Hr & e & Hv)|(e & Hr & He)]; rewrite Hr.
    - simpl. rewrite Hv. reflexivity.
    - destruct e; simpl; congruence. }
  rewrite Hfall. unfold get_Rotate. split.
  - intros v z Hr Hv. rewrite Hr. simpl. unfold numeric in Hv. rewrite Hv.
    reflexivity.
  - intros [Hr|[(e & Hr)|(v & Hr & e & Hv)]]; rewrite Hr; simpl;
      try rewrite Hv; reflexivity.
Qed.

Lemma page_rotation_fallback_witness :
  _page_rotation unreadable_rotation_page = Ok 90
  ∧ _page_rotation (with_rotation unreadable_rotation_page 405) = Ok 45.
Proof.
  destruct (page_rotation_fallback unreadable_rotation_page)
    as (_ & _ & _ & _ & Hfallback).
  destruct Hfallback as [Hnumber _].
  { right. exists RuntimeError. split; [reflexivity | discriminate]. }
  split.
  - apply (Hnumber (PyInt 90) 90); reflexivity.
  - destruct (page_rotation_fallback (with_rotation unreadable_rotation_page 405))
      as (_ & Hattr & _).
    apply (Hattr (PyInt 405) 405); reflexivity.
Defined.

(** ** The aspect fit: scale and centring *)

Lemma Q_of_float_pos (f : float) (q : Q) :
  PrimFloat.ltb 0%float f = true → Q_of_float f = Some q → (0 < q)%Q.
Proof.
  rewrite FloatAxioms.ltb_spec. unfold SFltb, Q_of_float.
  change (Prim2SF 0%float) with (S754_zero false).
  destruct (Prim2SF f) as [s|s| |s m e]; simpl; try destruct s;
    try discriminate.
  intros _ [= <-]. apply Qmult_lt_0_compat.
  - reflexivity.
  - apply Qpower_0_lt. reflexivity.
Qed.

Lemma Q_pos_nonzero (y : Q) : (0 < y)%Q → ¬ (y == 0)%Q.
Proof. intros Hy E. rewrite E in Hy. by apply Qlt_irrefl in Hy. Qed.

Lemma Q_div_nonzero (x y : Q) : (0 < y)%Q → Q_div x y = Ok (x / y)%Q.
Proof.
  intros Hy. unfold Q_div. destruct (Qeq_bool y 0) eqn:E; [|done].
  apply Qeq_bool_eq in E. by apply Q_pos_nonzero in Hy.
Qed.

(** In exact arithmetic the fit is the textbook one. *)
Lemma fit_geometry_exact (w h W H : Q) :
  (0 < w)%Q → (0 < h)%Q →
  ∃ scale tx ty,
    fit_geometry w h W H = Ok (scale, tx, ty)
    ∧ (scale <= W / w ∧ scale <= H / h ∧ (scale == W / w ∨ scale == H / h))%Q
    ∧ (scale * w <= W ∧ scale * h <= H
       ∧ (scale * w == W ∨ scale * h == H))%Q
    ∧ (tx == (W - scale * w) / 2 ∧ ty == (H - scale * h) / 2)%Q
    ∧ (0 <= tx ∧ 0 <= ty)%Q.
Proof.
  intros Hw Hh. unfold fit_geometry.
  cbn [a_div a_mul a_sub a_two Q_arith].
  rewrite (Q_div_nonzero W w Hw), (Q_div_nonzero H h Hh).
  cbn [mbind result_bind].
  rewrite !(Q_div_nonzero _ 2) by reflexivity.
  cbn [mbind result_bind].
  eexists _, _, _. split; [reflexivity|].
  assert (Ha : (W / w * w == W)%Q) by (field; by apply Q_pos_nonzero).
  assert (Hb : (H / h * h == H)%Q) by (field; by apply Q_pos_nonzero).
  unfold py_min. cbn [a_ltb Q_arith].
  set (a := (W / w)%Q) in *. set (b := (H / h)%Q) in *.
  destruct (Qle_bool a b) eqn:E; cbn [negb].
  - apply Qle_bool_iff in E.
    assert (Hbh : (a * h <= b * h)%Q) by (apply Qmult_le_compat_r; lra).
    repeat split; try lra; try (by field);
      (apply Qle_shift_div_l; [reflexivity|]; lra).
  - assert (Hlt : (b < a)%Q).
    { apply Qnot_le_lt. intros Hle. apply Qle_bool_iff in Hle. congruence. }
    assert (Hbw : (b * w <= a * w)%Q) by (apply Qmult_le_compat_r; lra).
    repeat split; try lra; try (by field);
      (apply Qle_shift_div_l; [reflexivity|]; lra).
Qed.

(** C2, as stated, fails in binary64: fitting a 90 x 90 page into a
    792 x 792 target gives [scale = 792 / 90], rounded up, so [scale * 90]
    exceeds 792 on both axes (no axis is met exactly) and both offsets are
    negative. *)
Lemma fit_geometry_rounding_counterexample :
  ∃ scale tx ty,
    fit_geometry 90%float 90%float 792%float 792%float = Ok (scale, tx, ty)
    ∧ contents <$> (_fit_page_with_padding square_page 792 792)
      = Ok (Merged Blank
              (Transformed [Scale scale scale; Translate tx ty] (Stream "stamp")))
    ∧ PrimFloat.ltb 0 90 = true
    ∧ scale = py_min (792 / 90)%float (792 / 90)%float
    ∧ PrimFloat.leb (scale * 90) 792 = false
    ∧ PrimFloat.eqb (scale * 90) 792 = false
    ∧ PrimFloat.leb 0 tx = false
    ∧ PrimFloat.leb 0 ty = false.
Proof.
  eexists _, _, _. split; [reflexivity|]. repeat split; vm_compute; reflexivity.
Qed.

(** Nor do the binary64 values stay near the exact ones: with sizes 2^-600
    and 2^600 the ratio overflows to infinity and both offsets are minus
    infinity, and the other way round the scale underflows to 0. *)
Example fit_geometry_overflow :
  fit_geometry 0x1p-600%float 0x1p-600%float 0x1p600%float 0x1p600%float
  = Ok (infinity, neg_infinity, neg_infinity)
  ∧ fit_geometry 0x1p600%float 0x1p600%float 0x1p-600%float 0x1p-600%float
    = Ok (0%float, 0x1p-601%float, 0x1p-601%float).
Proof. split; vm_compute; reflexivity. Qed.

(** C2 (amended). For a source page with declared width and height > 0 and
    any target size, [_fit_page_with_padding] computes, in binary64,
    [scale = min(W / w, H / h)], [tx = (W - w * scale) / 2] and
    [ty = (H - h * scale) / 2], and applies the scale first and the
    translation second. Evaluated exactly on the rational values of the same
    inputs, these expressions give [scale * w <= W] and [scale * h <= H] with
    equality on at least one axis, and offsets that are both >= 0. No bound
    is claimed for the binary64 values themselves: they fail by rounding
    ([fit_geometry_rounding_counterexample]) and, for extreme sizes, by
    overflow and underflow ([fit_geometry_overflow]). *)
Theorem fit_page_aspect_fit (source_page : PageObject)
    (target_width target_height : float) :
  let src_w := width (mediabox source_page) in
  let src_h := height (mediabox source_page) in
  PrimFloat.ltb 0 src_w = true →
  PrimFloat.ltb 0 src_h = true →
  let scale := py_min (target_width / src_w)%float (target_height / src_h)%float in
  let tx := ((target_width - src_w * scale) / 2)%float in
  let ty := ((target_height - src_h * scale) / 2)%float in
  fit_geometry src_w src_h target_width target_height = Ok (scale, tx, ty)
  ∧ _fit_page_with_padding source_page target_width target_height
    = Ok {| mediabox := {| width := target_width; height := target_height |};
            rotation := Value (PyInt 0);
            Rotate := Absent;
            contents :=
              Merged Blank
                (Transformed [Scale scale scale; Translate tx ty]
                   (contents source_page)) |}
  ∧ ∀ w h W H : Q,
      Q_of_float src_w = Some w → Q_of_float src_h = Some h →
      Q_of_float target_width = Some W → Q_of_float target_height = Some H →
      ∃ s x y,
        fit_geometry w h W H = Ok (s, x, y)
        ∧ (s <= W / w ∧ s <= H / h ∧ (s == W / w ∨ s == H / h))%Q
        ∧ (s * w <= W ∧ s * h <= H ∧ (s * w == W ∨ s * h == H))%Q
        ∧ (x == (W - s * w) / 2 ∧ y == (H - s * h) / 2)%Q
        ∧ (0 <= x ∧ 0 <= y)%Q.
Proof.
  intros src_w src_h Hw Hh scale tx ty.
  pose proof (float_pos_not_leb _ Hw) as Hw'.
  pose proof (float_pos_not_leb _ Hh) as Hh'.
  assert (Hgeom : fit_geometry src_w src_h target_width target_height
                  = Ok (scale, tx, ty))
    by apply (fit_geometry_float _ _ _ _ Hw' Hh').
  split; [exact Hgeom|]. split.
  - unfold _fit_page_with_padding. fold src_w src_h.
    rewrite Hw', Hh', Hgeom. reflexivity.
  - intros w h W H Qw Qh _ _.
    apply fit_geometry_exact; eauto using Q_of_float_pos.
Qed.

Lemma fit_page_aspect_fit_witness :
  _fit_page_with_padding business_card 792 612
  = Ok {| mediabox := {| width := 792; height := 612 |};
          rotation := Value (PyInt 0);
          Rotate := Absent;
          contents :=
            Merged Blank
              (Transformed
                 [Scale (792 / 100)%float (792 / 100)%float; Translate 0 108]
                 (Stream "card")) |}.
Proof.
  apply (proj1 (proj2 (fit_page_aspect_fit business_card 792 612
                         eq_refl eq_refl))).
Defined.

(** ** Rebuilding the document *)

Lemma PdfReader_lookup (fs : gmap string (list PageObject)) (path : string)
    (pages : list PageObject) :
  fs !! path = Some pages → PdfReader fs path = Ok pages.
Proof. unfold PdfReader. by intros ->. Qed.

Lemma PdfReader_Ok (fs : gmap string (list PageObject)) (path : string)
    (pages : list PageObject) :
  PdfReader fs path = Ok pages → fs !! path = Some pages.
Proof. unfold PdfReader. destruct (fs !! path); congruence. Qed.

(** A single replacement whose page number matches no position copies the
    document; the replacement file is not even opened. *)
Lemma replace_page_no_match (fs : gmap string (list PageObject))
    (original_pdf_path new_page_pdf_path output_pdf_path : string)
    (page_number : Z) (reader : list PageObject) :
  fs !! original_pdf_path = Some reader →
  page_number < 1 ∨ page_number > Z.of_nat (length reader) →
  replace_page_in_pdf fs original_pdf_path new_page_pdf_path page_number
    output_pdf_path
  = Ok (write fs output_pdf_path reader).
Proof.
  intros Hreader Hrange. unfold replace_page_in_pdf.
  rewrite (PdfReader_lookup _ _ _ Hreader). simpl.
  rewrite (for_each_pages reader (λ _ p, [p])).
  - by rewrite emit_pages_copy.
  - intros i p w Hp.
    pose proof (lookup_lt_Some _ _ _ Hp) as Hlt.
    replace (Z.of_nat i =? page_number - 1) with false
      by (symmetry; apply Z.eqb_neq; lia).
    by rewrite (getitem_lookup _ _ _ Hp).
Qed.

(** C3, as stated, fails: replacing page 6 of a 5-page document raises
    nothing and writes an output, a copy of the five pages. *)
Lemma replace_page_out_of_range_counterexample :
  length five_pages = 5%nat
  ∧ replace_page_in_pdf demo_fs "original.pdf" "new.pdf" 6 "out.pdf"
    = Ok (write demo_fs "out.pdf" five_pages)
  ∧ write demo_fs "out.pdf" five_pages !! "out.pdf" = Some five_pages.
Proof.
  split; [reflexivity|]. split.
  - apply replace_page_no_match; [reflexivity | right; simpl; lia].
  - apply lookup_insert_eq.
Qed.

(** C3 (amended). For every original document with [pageCount] pages,
    [replace_page_in_pdf] with a 1-indexed page number outside
    [1, pageCount] does not fail: it never opens the replacement file and
    writes an output document that is the original's pages, unchanged and in
    order. *)
Theorem replace_page_out_of_range_copies (fs : gmap string (list PageObject))
    (original_pdf_path new_page_pdf_path output_pdf_path : string)
    (page_number : Z) (reader : list PageObject) :
  fs !! original_pdf_path = Some reader →
  page_number < 1 ∨ page_number > Z.of_nat (length reader) →
  ∃ fs',
    replace_page_in_pdf fs original_pdf_path new_page_pdf_path page_number
      output_pdf_path = Ok fs'
    ∧ fs' = <[output_pdf_path := reader]> fs
    ∧ fs' !! output_pdf_path = Some reader.
Proof.
  intros Hreader Hrange. exists (write fs output_pdf_path reader).
  split; [by apply replace_page_no_match|]. split; [done|].
  apply lookup_insert_eq.
Qed.

Lemma replace_page_out_of_range_copies_witness :
  ∃ fs',
    replace_page_in_pdf demo_fs "original.pdf" "missing.pdf" 0 "out.pdf" = Ok fs'
    ∧ fs' = <["out.pdf" := five_pages]> demo_fs
    ∧ fs' !! "out.pdf" = Some five_pages.
Proof.
  apply (replace_page_out_of_range_copies demo_fs "original.pdf" "missing.pdf"
           "out.pdf" 0 five_pages).
  - reflexivity.
  - left. lia.
Defined.

(** *** Insertion *)

Lemma emit_pages_insert (prepared : PageObject) (after_page : Z)
    (pages : list PageObject) (s : nat) :
  emit_pages
    (λ i p, p :: if Z.of_nat i + 1 =? after_page then [prepared] else [])
    s pages
  = if decide (Z.of_nat s < after_page ≤ Z.of_nat s + Z.of_nat (length pages))
    then take (Z.to_nat after_page - s) pages
         ++ prepared :: drop (Z.to_nat after_page - s) pages
    else pages.
Proof.
  revert s. induction pages as [|p pages IH]; intros s; simpl.
  { case_decide; [lia | done]. }
  rewrite IH. destruct (Z.of_nat s + 1 =? after_page) eqn:E.
  - apply Z.eqb_eq in E.
    rewrite decide_False by lia. rewrite decide_True by lia.
    replace (Z.to_nat after_page - s)%nat with 1%nat by lia.
    reflexivity.
  - apply Z.eqb_neq in E. simpl.
    destruct (decide (Z.of_nat (S s) < after_page
                      ≤ Z.of_nat (S s) + Z.of_nat (length pages))) as [Hin|Hout].
    + rewrite decide_True by lia.
      replace (Z.to_nat after_page - s)%nat
        with (S (Z.to_nat after_page - S s)) by lia.
      reflexivity.
    + rewrite decide_False by lia. reflexivity.
Qed.

Lemma insert_page_writes (fs : gmap string (list PageObject))
    (original_pdf_path new_page_pdf_path output_pdf_path : string)
    (after_page : Z) (reader new_reader : list PageObject)
    (reference_page new_page prepared : PageObject) :
  fs !! original_pdf_path = Some reader →
  reader !! 0%nat = Some reference_page →
  fs !! new_page_pdf_path = Some new_reader →
  new_reader !! 0%nat = Some new_page →
  _build_replacement_page reference_page new_page = Ok prepared →
  insert_page fs original_pdf_path new_page_pdf_path after_page output_pdf_path
  = Ok (write fs output_pdf_path (inserted reader after_page prepared)).
Proof.
  intros Hreader Href Hnew Hpage Hbuild. unfold insert_page.
  rewrite (PdfReader_lookup _ _ _ Hreader). simpl.
  rewrite (getitem_lookup _ _ _ Href). simpl.
  rewrite (PdfReader_lookup _ _ _ Hnew). simpl.
  rewrite (getitem_lookup _ _ _ Hpage). simpl.
  rewrite Hbuild. simpl.
  rewrite (for_each_pages reader
             (λ i p, p :: if Z.of_nat i + 1 =? after_page then [prepared] else [])).
  - simpl. f_equal. f_equal. rewrite emit_pages_insert. unfold inserted.
    destruct (after_page =? 0) eqn:E.
    + apply Z.eqb_eq in E. subst after_page.
      rewrite decide_False by lia. rewrite decide_True by lia. reflexivity.
    + apply Z.eqb_neq in E. simpl. rewrite Nat.sub_0_r.
      case_decide; [rewrite decide_True by lia | rewrite decide_False by lia];
        reflexivity.
  - intros i p w Hp. rewrite (getitem_lookup _ _ _ Hp). simpl.
    destruct (Z.of_nat i + 1 =? after_page); unfold add_page;
      [by rewrite <- app_assoc | done].
Qed.

Lemma length_inserted (pages : list PageObject) (after_page : Z)
    (prepared : PageObject) :
  length (inserted pages after_page prepared)
  = if decide (0 ≤ after_page ≤ Z.of_nat (length pages))
    then S (length pages) else length pages.
Proof.
  unfold inserted. case_decide; [|done].
  rewrite length_app. simpl. rewrite length_take, length_drop. lia.
Qed.

(** Unfolds a successful sequence of binds into its successful steps. *)
Ltac bind_inv H :=
  repeat
    (let a := fresh "a" in
     let Ha := fresh "Hstep" in
     apply bind_Ok in H as (a & Ha & H)).

(** *** Counting the pages written *)

Lemma replace_page_length (fs : gmap string (list PageObject))
    (original_pdf_path new_page_pdf_path output_pdf_path : string)
    (page_number : Z) (reader : list PageObject)
    (fs' : gmap string (list PageObject)) :
  fs !! original_pdf_path = Some reader →
  replace_page_in_pdf fs original_pdf_path new_page_pdf_path page_number
    output_pdf_path = Ok fs' →
  ∃ writer, fs' !! output_pdf_path = Some writer ∧ length writer = length reader.
Proof.
  intros Hreader Hrun. unfold replace_page_in_pdf in Hrun.
  rewrite (PdfReader_lookup _ _ _ Hreader) in Hrun. simpl in Hrun.
  apply bind_Ok in Hrun as (writer & Hloop & Hrun).
  injection Hrun as <-. exists writer. split; [apply lookup_insert_eq|].
  revert Hloop.
  apply (for_range_invariant (λ i w, length w = i)); [done|].
  intros i w1 w2 _ Hlen Hbody.
  destruct (Z.of_nat i =? page_number - 1); bind_inv Hbody;
    injection Hbody as <-; unfold add_page; rewrite length_app; simpl; lia.
Qed.

(** The batch loop writes one page per position and copies every position
    that is not a key of the mapping. *)
Lemma batch_replace_pages_frame (fs : gmap string (list PageObject))
    (original_pdf_path output_pdf_path : string) (replacements : gmap Z string)
    (reader : list PageObject) (fs' : gmap string (list PageObject)) :
  fs !! original_pdf_path = Some reader →
  batch_replace_pages fs original_pdf_path replacements output_pdf_path = Ok fs' →
  ∃ writer,
    fs' = <[output_pdf_path := writer]> fs
    ∧ length writer = length reader
    ∧ ∀ i : nat, replacements !! (Z.of_nat i + 1) = None →
                 writer !! i = reader !! i.
Proof.
  intros Hreader Hrun. unfold batch_replace_pages in Hrun.
  rewrite (PdfReader_lookup _ _ _ Hreader) in Hrun. simpl in Hrun.
  apply bind_Ok in Hrun as (writer & Hloop & Hrun).
  injection Hrun as <-. exists writer. split; [done|].
  assert (Hinv : length writer = length reader
                 ∧ ∀ j, (j < length reader)%nat →
                        replacements !! (Z.of_nat j + 1) = None →
                        writer !! j = reader !! j).
  { revert Hloop.
    apply (for_range_invariant
             (λ i w, length w = i
                     ∧ ∀ j, (j < i)%nat →
                            replacements !! (Z.of_nat j + 1) = None →
                            w !! j = reader !! j)).
    { split; [done | intros; lia]. }
    intros i w1 w2 Hi [Hlen Hframe] Hbody.
    assert (Hw2 : ∃ p, w2 = w1 ++ [p]
                       ∧ (replacements !! (Z.of_nat i + 1) = None →
                          reader !! i = Some p)).
    { destruct (replacements !! (Z.of_nat i + 1)) as [path|];
        bind_inv Hbody; injection Hbody as <-; eexists; (split; [done|]);
        [done|]. intros _. unfold getitem in *.
      destruct (reader !! i); congruence. }
    destruct Hw2 as (p & -> & Hp). split.
    - rewrite length_app. simpl. lia.
    - intros j Hj Hnone. destruct (decide (j = i)) as [->|Hne].
      + rewrite lookup_app_r by lia.
        replace (i - length w1)%nat with 0%nat by lia.
        simpl. symmetry. by apply Hp.
      + rewrite lookup_app_l by lia. apply Hframe; [lia | done]. }
  destruct Hinv as [Hlen Hframe]. split; [done|].
  intros i Hnone. destruct (decide (i < length reader)%nat) as [Hlt|Hge].
  - by apply Hframe.
  - rewrite !lookup_ge_None_2 by lia. done.
Qed.

Lemma batch_replace_pages_empty (fs : gmap string (list PageObject))
    (original_pdf_path output_pdf_path : string) (reader : list PageObject) :
  fs !! original_pdf_path = Some reader →
  batch_replace_pages fs original_pdf_path ∅ output_pdf_path
  = Ok (write fs output_pdf_path reader).
Proof.
  intros Hreader. unfold batch_replace_pages.
  rewrite (PdfReader_lookup _ _ _ Hreader). simpl.
  rewrite (for_each_pages reader (λ _ p, [p])).
  - by rewrite emit_pages_copy.
  - intros i p w Hp. rewrite lookup_empty.
    by rewrite (getitem_lookup _ _ _ Hp).
Qed.

Lemma insert_page_Ok (fs : gmap string (list PageObject))
    (original_pdf_path new_page_pdf_path output_pdf_path : string)
    (after_page : Z) (reader : list PageObject)
    (fs' : gmap string (list PageObject)) :
  fs !! original_pdf_path = Some reader →
  insert_page fs original_pdf_path new_page_pdf_path after_page output_pdf_path
  = Ok fs' →
  ∃ prepared, fs' = write fs output_pdf_path (inserted reader after_page prepared).
Proof.
  intros Hreader Hrun. pose proof Hrun as Hrun'. unfold insert_page in Hrun.
  rewrite (PdfReader_lookup _ _ _ Hreader) in Hrun. simpl in Hrun.
  apply bind_Ok in Hrun as (reference_page & Href & Hrun).
  apply bind_Ok in Hrun as (new_reader & Hnew & Hrun).
  apply bind_Ok in Hrun as (new_page & Hpage & Hrun).
  apply bind_Ok in Hrun as (prepared & Hbuild & _).
  exists prepared.
  unfold getitem in Href, Hpage.
  destruct (reader !! 0%nat) as [r|] eqn:Er; [|discriminate].
  destruct (new_reader !! 0%nat) as [n|] eqn:En; [|discriminate].
  injection Href as ->. injection Hpage as ->.
  apply PdfReader_Ok in Hnew.
  rewrite (insert_page_writes _ _ _ _ _ _ _ _ _ _ Hreader Er Hnew En Hbuild)
    in Hrun'.
  congruence.
Qed.

Lemma _build_replacement_page_box (original_page new_page : PageObject) :
  ∃ rot page,
    _page_rotation original_page = Ok rot
    ∧ _build_replacement_page original_page new_page = Ok page
    ∧ mediabox page = visual_box original_page rot.
Proof.
  destruct (_page_rotation_range original_page) as (rot & Hrot & _).
  destruct (_fit_page_with_padding_box new_page
              (width (visual_box original_page rot))
              (height (visual_box original_page rot)))
    as (page & Hfit & Hbox & _).
  exists rot, page. split; [done|]. split.
  - by rewrite (_build_replacement_page_fit _ _ _ Hrot).
  - rewrite Hbox. by destruct (visual_box original_page rot).
Qed.

(** C4, as stated, fails: inserting after page 6, or after page -1, of a
    5-page document raises nothing; the output is written and holds the five
    original pages, with no page inserted. *)
Lemma insert_page_out_of_range_counterexample :
  length five_pages = 5%nat
  ∧ insert_page demo_fs "original.pdf" "new.pdf" 6 "out.pdf"
    = Ok (write demo_fs "out.pdf" five_pages)
  ∧ insert_page demo_fs "original.pdf" "new.pdf" (-1) "out.pdf"
    = Ok (write demo_fs "out.pdf" five_pages).
Proof.
  split; [reflexivity|].
  destruct (_build_replacement_page_Ok (letter "p1") business_card)
    as [prepared Hprepared].
  split;
    rewrite (insert_page_writes demo_fs "original.pdf" "new.pdf" "out.pdf" _
               five_pages [business_card] (letter "p1") business_card prepared)
      by done;
    reflexivity.
Qed.

(** C4 (amended). [insert_page] fails, with [IndexError], when the original
    document is empty. On a non-empty original (and a new-page document that
    has a first page) it does not fail when [after_page] is negative or
    exceeds the page count: it writes the original pages with nothing
    inserted. With [after_page = 0] it succeeds and places the prepared page
    first. *)
Theorem insert_page_bounds (fs : gmap string (list PageObject))
    (original_pdf_path new_page_pdf_path output_pdf_path : string)
    (after_page : Z) (reader : list PageObject) :
  fs !! original_pdf_path = Some reader →
  (reader = [] →
   insert_page fs original_pdf_path new_page_pdf_path after_page output_pdf_path
   = Raise IndexError)
  ∧ (∀ reference_page new_reader new_page,
       reader !! 0%nat = Some reference_page →
       fs !! new_page_pdf_path = Some new_reader →
       new_reader !! 0%nat = Some new_page →
       ∃ prepared,
         _build_replacement_page reference_page new_page = Ok prepared
         ∧ (after_page < 0 ∨ after_page > Z.of_nat (length reader) →
            insert_page fs original_pdf_path new_page_pdf_path after_page
              output_pdf_path
            = Ok (<[output_pdf_path := reader]> fs))
         ∧ (after_page = 0 →
            insert_page fs original_pdf_path new_page_pdf_path after_page
              output_pdf_path
            = Ok (<[output_pdf_path := prepared :: reader]> fs))).
Proof.
  intros Hreader. split.
  - intros ->. unfold insert_page.
    rewrite (PdfReader_lookup _ _ _ Hreader). reflexivity.
  - intros reference_page new_reader new_page Href Hnew Hpage.
    destruct (_build_replacement_page_Ok reference_page new_page)
      as [prepared Hprepared].
    exists prepared. split; [done|].
    rewrite (insert_page_writes _ _ _ _ after_page _ _ _ _ _
               Hreader Href Hnew Hpage Hprepared).
    unfold write, inserted. split.
    + intros Hout. by rewrite decide_False by lia.
    + intros ->. by rewrite decide_True by lia.
Qed.

Lemma insert_page_bounds_witness :
  insert_page (<["empty.pdf" := []]> demo_fs) "empty.pdf" "new.pdf" 0 "out.pdf"
  = Raise IndexError
  ∧ ∃ prepared,
      _build_replacement_page (letter "p1") business_card = Ok prepared
      ∧ insert_page demo_fs "original.pdf" "new.pdf" 0 "out.pdf"
        = Ok (<["out.pdf" := prepared :: five_pages]> demo_fs).
Proof.
  split.
  - apply (insert_page_bounds (<["empty.pdf" := []]> demo_fs) "empty.pdf"
             "new.pdf" "out.pdf" 0 []); reflexivity.
  - destruct (insert_page_bounds demo_fs "original.pdf" "new.pdf" "out.pdf" 0
                five_pages eq_refl) as [_ Hnonempty].
    destruct (Hnonempty (letter "p1") [business_card] business_card
                eq_refl eq_refl eq_refl) as (prepared & Hprepared & _ & Hfirst).
    exists prepared. split; [exact Hprepared | exact (Hfirst eq_refl)].
Defined.

(** C7. For every non-empty original document, [insert_page] sizes the
    composed page against the visual footprint of the document's first page,
    wherever it is inserted: with [after_page = 0] the composed page comes
    before all original pages, otherwise right after the page at 1-indexed
    position [after_page]; the original pages are all copied, in order. *)
Theorem insert_page_position (fs : gmap string (list PageObject))
    (original_pdf_path new_page_pdf_path output_pdf_path : string)
    (after_page : Z) (reader new_reader : list PageObject)
    (reference_page new_page : PageObject) :
  fs !! original_pdf_path = Some reader →
  reader !! 0%nat = Some reference_page →
  fs !! new_page_pdf_path = Some new_reader →
  new_reader !! 0%nat = Some new_page →
  0 ≤ after_page ≤ Z.of_nat (length reader) →
  ∃ rot prepared,
    _page_rotation reference_page = Ok rot
    ∧ _build_replacement_page reference_page new_page = Ok prepared
    ∧ mediabox prepared = visual_box reference_page rot
    ∧ insert_page fs original_pdf_path new_page_pdf_path after_page
        output_pdf_path
      = Ok (<[output_pdf_path :=
                take (Z.to_nat after_page) reader
                ++ prepared :: drop (Z.to_nat after_page) reader]> fs)
    ∧ (after_page = 0 →
       take (Z.to_nat after_page) reader
       ++ prepared :: drop (Z.to_nat after_page) reader = prepared :: reader).
Proof.
  intros Hreader Href Hnew Hpage Hrange.
  destruct (_build_replacement_page_box reference_page new_page)
    as (rot & prepared & Hrot & Hprepared & Hbox).
  exists rot, prepared. repeat split; try done.
  - rewrite (insert_page_writes _ _ _ _ after_page _ _ _ _ _
               Hreader Href Hnew Hpage Hprepared).
    unfold write, inserted. by rewrite decide_True by lia.
  - by intros ->.
Qed.

Lemma insert_page_position_witness :
  ∃ prepared,
    mediabox prepared = {| width := 612; height := 792 |}
    ∧ insert_page demo_fs "original.pdf" "new.pdf" 2 "out.pdf"
      = Ok (<["out.pdf" :=
                [letter "p1"; letter "p2"; prepared;
                 letter "p3"; letter "p4"; letter "p5"]]> demo_fs).
Proof.
  destruct (insert_page_position demo_fs "original.pdf" "new.pdf" "out.pdf" 2
              five_pages [business_card] (letter "p1") business_card
              eq_refl eq_refl eq_refl eq_refl)
    as (rot & prepared & Hrot & _ & Hbox & Hrun & _).
  - simpl. lia.
  - exists prepared. split; [|exact Hrun].
    rewrite Hbox. injection Hrot as <-. reflexivity.
Defined.

(** *** Page counts *)

(** C5, as stated, fails: inserting after page 6 of a 5-page document is a
    successful operation whose output has 5 pages, not 6. *)
Lemma page_count_insert_counterexample :
  ∃ fs' writer,
    insert_page demo_fs "original.pdf" "new.pdf" 6 "out.pdf" = Ok fs'
    ∧ demo_fs !! "original.pdf" = Some five_pages
    ∧ fs' !! "out.pdf" = Some writer
    ∧ length writer = length five_pages
    ∧ length writer ≠ (length five_pages + 1)%nat.
Proof.
  destruct (_build_replacement_page_Ok (letter "p1") business_card)
    as [prepared Hprepared].
  exists (write demo_fs "out.pdf" five_pages), five_pages.
  split.
  - rewrite (insert_page_writes demo_fs "original.pdf" "new.pdf" "out.pdf" _
               five_pages [business_card] (letter "p1") business_card prepared)
      by done.
    reflexivity.
  - repeat split; try reflexivity. simpl. lia.
Qed.

(** C5 (amended). For every successful operation, the output document has as
    many pages as the input for a single replace and for a batch replace; for
    an insertion it has one page more when [after_page] lies in
    [0, pageCount], and as many pages as the input when [after_page] lies
    outside (such an insertion succeeds too). *)
Theorem page_count_invariant (fs fs' : gmap string (list PageObject))
    (original_pdf_path new_page_pdf_path output_pdf_path : string)
    (page_number after_page : Z) (replacements : gmap Z string)
    (reader : list PageObject) :
  fs !! original_pdf_path = Some reader →
  (replace_page_in_pdf fs original_pdf_path new_page_pdf_path page_number
     output_pdf_path = Ok fs' →
   ∃ writer, fs' !! output_pdf_path = Some writer
             ∧ length writer = length reader)
  ∧ (batch_replace_pages fs original_pdf_path replacements output_pdf_path
     = Ok fs' →
     ∃ writer, fs' !! output_pdf_path = Some writer
               ∧ length writer = length reader)
  ∧ (insert_page fs original_pdf_path new_page_pdf_path after_page
       output_pdf_path = Ok fs' →
     ∃ writer, fs' !! output_pdf_path = Some writer
               ∧ length writer
                 = if decide (0 ≤ after_page ≤ Z.of_nat (length reader))
                   then (length reader + 1)%nat else length reader).
Proof.
  intros Hreader. split; [|split].
  - by apply replace_page_length.
  - intros Hrun.
    destruct (batch_replace_pages_frame _ _ _ _ _ _ Hreader Hrun)
      as (writer & -> & Hlen & _).
    exists writer. split; [apply lookup_insert_eq | done].
  - intros Hrun.
    destruct (insert_page_Ok _ _ _ _ _ _ _ Hreader Hrun) as (prepared & ->).
    eexists. split; [apply lookup_insert_eq|].
    rewrite length_inserted. case_decide; lia.
Qed.

Example prepared_card_built :
  _build_replacement_page (letter "p1") business_card = Ok prepared_card.
Proof. reflexivity. Qed.

Lemma page_count_invariant_witness :
  ∃ writer,
    write demo_fs "out.pdf" (inserted five_pages 2 prepared_card) !! "out.pdf"
    = Some writer
    ∧ length writer = 6%nat.
Proof.
  destruct (page_count_invariant demo_fs
              (write demo_fs "out.pdf" (inserted five_pages 2 prepared_card))
              "original.pdf" "new.pdf" "out.pdf" 0 2 ∅ five_pages eq_refl)
    as (_ & _ & Hinsert).
  apply Hinsert. reflexivity.
Defined.

(** *** Batch replacement *)

Lemma lookup_two_four (path_a path_b : string) :
  let replacements : gmap Z string := {[2 := path_a; 4 := path_b]} in
  replacements !! (Z.of_nat 0 + 1) = None
  ∧ replacements !! (Z.of_nat 1 + 1) = Some path_a
  ∧ replacements !! (Z.of_nat 2 + 1) = None
  ∧ replacements !! (Z.of_nat 3 + 1) = Some path_b
  ∧ replacements !! (Z.of_nat 4 + 1) = None.
Proof. repeat split; reflexivity. Qed.

Lemma batch_replace_pages_two_four (fs : gmap string (list PageObject))
    (original_pdf_path output_pdf_path path_a path_b : string)
    (o1 o2 o3 o4 o5 a b fit_a fit_b : PageObject) (doc_a doc_b : list PageObject) :
  fs !! original_pdf_path = Some [o1; o2; o3; o4; o5] →
  fs !! path_a = Some doc_a → doc_a !! 0%nat = Some a →
  fs !! path_b = Some doc_b → doc_b !! 0%nat = Some b →
  _build_replacement_page o2 a = Ok fit_a →
  _build_replacement_page o4 b = Ok fit_b →
  batch_replace_pages fs original_pdf_path {[2 := path_a; 4 := path_b]}
    output_pdf_path
  = Ok (write fs output_pdf_path [o1; fit_a; o3; fit_b; o5]).
Proof.
  intros Hreader Ha Ha0 Hb Hb0 Hfa Hfb. unfold batch_replace_pages.
  rewrite (PdfReader_lookup _ _ _ Hreader).
  destruct (lookup_two_four path_a path_b) as (H1 & H2 & H3 & H4 & H5).
  cbn [mbind result_bind range length seq for_each].
  rewrite H1, H2, H3, H4, H5.
  rewrite (PdfReader_lookup _ _ _ Ha), (PdfReader_lookup _ _ _ Hb). simpl.
  rewrite (getitem_lookup _ _ _ Ha0), (getitem_lookup _ _ _ Hb0). simpl.
  rewrite Hfa, Hfb. reflexivity.
Qed.

(** A batch replacement succeeds as soon as every key that names a position
    of the document points at a document with a first page. *)
Lemma batch_replace_pages_succeeds (fs : gmap string (list PageObject))
    (original_pdf_path output_pdf_path : string) (replacements : gmap Z string)
    (reader : list PageObject) :
  fs !! original_pdf_path = Some reader →
  (∀ (i : nat) path,
     (i < length reader)%nat → replacements !! (Z.of_nat i + 1) = Some path →
     ∃ new_reader new_page,
       fs !! path = Some new_reader ∧ new_reader !! 0%nat = Some new_page) →
  ∃ fs', batch_replace_pages fs original_pdf_path replacements output_pdf_path
         = Ok fs'.
Proof.
  intros Hreader Hkeys. unfold batch_replace_pages.
  rewrite (PdfReader_lookup _ _ _ Hreader). simpl.
  match goal with
  | |- ∃ _, for_each ?xs ?body ?w0 ≫= _ = _ =>
      destruct (for_each_total xs body w0) as [writer Hwriter]
  end.
  - intros i w Hi. unfold range in Hi.
    apply list_elem_of_In, in_seq in Hi as [_ Hi]. simpl in Hi.
    destruct (lookup_lt_is_Some_2 reader i Hi) as [p Hp].
    rewrite (getitem_lookup _ _ _ Hp).
    destruct (replacements !! (Z.of_nat i + 1)) as [path|] eqn:Hkey;
      simpl; [|eauto].
    destruct (Hkeys i path Hi Hkey) as (new_reader & new_page & Hnew & Hpage).
    rewrite (PdfReader_lookup _ _ _ Hnew). simpl.
    rewrite (getitem_lookup _ _ _ Hpage). simpl.
    destruct (_build_replacement_page_Ok p new_page) as [page Hbuilt].
    rewrite Hbuilt. simpl. eauto.
  - rewrite Hwriter. simpl. eauto.
Qed.

(** C6. For every batch replacement (which succeeds whenever the keys in
    range name documents with a first page), every position that is not a key
    of the mapping is copied into the output unchanged, at its original
    position:
    the mapping {2: A, 4: B} on a 5-page document yields exactly
    [orig1, fit(A), orig3, fit(B), orig5], and the empty mapping yields the
    input's pages, same count and same content. *)
Theorem batch_replace_pages_pass_through (fs : gmap string (list PageObject))
    (original_pdf_path output_pdf_path : string) (reader : list PageObject) :
  fs !! original_pdf_path = Some reader →
  (∀ replacements,
     (∀ (i : nat) path,
        (i < length reader)%nat →
        replacements !! (Z.of_nat i + 1) = Some path →
        ∃ new_reader new_page,
          fs !! path = Some new_reader ∧ new_reader !! 0%nat = Some new_page) →
     ∃ fs', batch_replace_pages fs original_pdf_path replacements
              output_pdf_path = Ok fs')
  ∧ (∀ replacements fs',
       batch_replace_pages fs original_pdf_path replacements output_pdf_path
       = Ok fs' →
       ∃ writer,
         fs' !! output_pdf_path = Some writer
         ∧ length writer = length reader
         ∧ ∀ i : nat, replacements !! (Z.of_nat i + 1) = None →
                      writer !! i = reader !! i)
  ∧ (∀ path_a path_b doc_a doc_b o1 o2 o3 o4 o5 a b,
       reader = [o1; o2; o3; o4; o5] →
       fs !! path_a = Some doc_a → doc_a !! 0%nat = Some a →
       fs !! path_b = Some doc_b → doc_b !! 0%nat = Some b →
       ∃ fit_a fit_b,
         _build_replacement_page o2 a = Ok fit_a
         ∧ _build_replacement_page o4 b = Ok fit_b
         ∧ batch_replace_pages fs original_pdf_path
             {[2 := path_a; 4 := path_b]} output_pdf_path
           = Ok (<[output_pdf_path := [o1; fit_a; o3; fit_b; o5]]> fs))
  ∧ batch_replace_pages fs original_pdf_path ∅ output_pdf_path
    = Ok (<[output_pdf_path := reader]> fs).
Proof.
  intros Hreader. split; [|split; [|split]].
  - intros replacements Hkeys.
    by apply (batch_replace_pages_succeeds _ _ _ _ reader).
  - intros replacements fs' Hrun.
    destruct (batch_replace_pages_frame _ _ _ _ _ _ Hreader Hrun)
      as (writer & -> & Hlen & Hframe).
    exists writer. split; [apply lookup_insert_eq | done].
  - intros path_a path_b doc_a doc_b o1 o2 o3 o4 o5 a b -> Ha Ha0 Hb Hb0.
    destruct (_build_replacement_page_Ok o2 a) as [fit_a Hfa].
    destruct (_build_replacement_page_Ok o4 b) as [fit_b Hfb].
    exists fit_a, fit_b. split; [done|]. split; [done|].
    by apply (batch_replace_pages_two_four fs original_pdf_path output_pdf_path
                path_a path_b o1 o2 o3 o4 o5 a b fit_a fit_b doc_a doc_b).
  - by apply batch_replace_pages_empty.
Qed.

Lemma batch_replace_pages_pass_through_witness :
  batch_replace_pages batch_fs "original.pdf" ∅ "out.pdf"
  = Ok (<["out.pdf" := five_pages]> batch_fs)
  ∧ ∃ fit_a fit_b,
      batch_replace_pages batch_fs "original.pdf"
        {[2 := "a.pdf"; 4 := "b.pdf"]} "out.pdf"
      = Ok (<["out.pdf" :=
                [letter "p1"; fit_a; letter "p3"; fit_b; letter "p5"]]> batch_fs).
Proof.
  destruct (batch_replace_pages_pass_through batch_fs "original.pdf" "out.pdf"
              five_pages eq_refl) as (_ & _ & Hexample & Hempty).
  split; [exact Hempty|].
  destruct (Hexample "a.pdf" "b.pdf" [business_card] [zero_width_page]
              (letter "p1") (letter "p2") (letter "p3") (letter "p4")
              (letter "p5") business_card zero_width_page
              eq_refl eq_refl eq_refl eq_refl eq_refl)
    as (fit_a & fit_b & _ & _ & Hrun).
  exists fit_a, fit_b. exact Hrun.
Defined.

(** * Further properties of the code *)

(** ** More on loops *)

Lemma for_each_ext {A W} (xs : list A) (body1 body2 : A → W → result W) (w0 : W) :
  (∀ x w, x ∈ xs → body1 x w = body2 x w) →
  for_each xs body1 w0 = for_each xs body2 w0.
Proof.
  revert w0. induction xs as [|x xs IH]; intros w0 Hext; simpl; [done|].
  rewrite (Hext x w0) by apply list_elem_of_here.
  destruct (body2 x w0) as [w'|e]; simpl; [|done].
  apply IH. intros y w Hy. apply Hext. by apply list_elem_of_further.
Qed.

(** A loop with an iteration that raises whatever the state raises; the
    exception is one an iteration raises. *)
Lemma for_each_raises {A W} (P : exn → Prop) (xs : list A)
    (body : A → W → result W) (x : A) (w0 : W) :
  x ∈ xs →
  (∀ w, ∃ e, body x w = Raise e) →
  (∀ y w e, y ∈ xs → body y w = Raise e → P e) →
  ∃ e, for_each xs body w0 = Raise e ∧ P e.
Proof.
  revert w0. induction xs as [|y xs IH]; intros w0 Hx Hbad HP.
  { by apply elem_of_nil in Hx. }
  simpl. destruct (body y w0) as [w'|e] eqn:Hy; simpl.
  - apply elem_of_cons in Hx as [->|Hx].
    + destruct (Hbad w0) as [e He]. congruence.
    + apply IH; [done | done |].
      intros z w e Hz. apply HP. by apply list_elem_of_further.
  - exists e. split; [done|]. apply (HP y w0); [apply list_elem_of_here | done].
Qed.

Lemma elem_of_range (i n : nat) : i ∈ range n ↔ (i < n)%nat.
Proof.
  unfold range. rewrite list_elem_of_In, in_seq. lia.
Qed.

(** Writing [f i p] at every position [i] is an indexed map. *)
Lemma emit_pages_singleton {B C} (f : nat → B → C) (s : nat) (pages : list B) :
  emit_pages (λ i p, [f i p]) s pages = imap (λ i, f (s + i)%nat) pages.
Proof.
  revert s. induction pages as [|p pages IH]; intros s; simpl; [done|].
  rewrite IH. f_equal; [by rewrite Nat.add_0_r|].
  apply imap_ext. intros i x _. simpl. f_equal. lia.
Qed.

Lemma imap_replace_at (pages : list PageObject) (k : nat) (c : PageObject) :
  imap (λ i p, if decide (i = k) then c else p) pages = <[k := c]> pages.
Proof.
  apply list_eq. intros i. rewrite list_lookup_imap.
  destruct (decide (i = k)) as [->|Hne].
  - destruct (pages !! k) as [p|] eqn:Hp; simpl.
    + symmetry. apply list_lookup_insert_eq. by apply lookup_lt_Some in Hp.
    + symmetry. apply lookup_ge_None. rewrite length_insert.
      by apply lookup_ge_None in Hp.
  - rewrite list_lookup_insert_ne by done.
    by destruct (pages !! i).
Qed.

(** ** The aspect fit is total *)

(** X1. [_fit_page_with_padding] never raises, whatever the source box and
    the target size (zero, negative zero, negative, infinite or NaN sides
    included): the guard [src_w <= 0 or src_h <= 0] keeps every zero divisor
    away from the two divisions. The page it returns has exactly the target
    box, reads rotation 0, and shows the source's content and nothing else
    over a blank canvas, either as it is or under a transformation. *)
Theorem fit_page_total (source_page : PageObject)
    (target_width target_height : float) :
  ∃ page,
    _fit_page_with_padding source_page target_width target_height = Ok page
    ∧ mediabox page = {| width := target_width; height := target_height |}
    ∧ _page_rotation page = Ok 0
    ∧ (contents page = Merged Blank (contents source_page)
       ∨ ∃ ctm, contents page
                = Merged Blank (Transformed ctm (contents source_page))).
Proof.
  unfold _fit_page_with_padding.
  destruct (PrimFloat.leb (width (mediabox source_page)) 0%float) eqn:Hw; simpl.
  { eexists. split; [reflexivity|]. repeat split. by left. }
  destruct (PrimFloat.leb (height (mediabox source_page)) 0%float) eqn:Hh; simpl.
  { eexists. split; [reflexivity|]. repeat split. by left. }
  rewrite (fit_geometry_float _ _ _ _ Hw Hh). simpl.
  eexists. split; [reflexivity|]. repeat split. right. eauto.
Qed.

(** ** Single replacement inside the document *)

Lemma replace_page_match (fs : gmap string (list PageObject))
    (original_pdf_path new_page_pdf_path output_pdf_path : string)
    (page_number : Z) (reader new_reader : list PageObject)
    (original_page new_page composed : PageObject) :
  fs !! original_pdf_path = Some reader →
  0 ≤ page_number - 1 →
  reader !! Z.to_nat (page_number - 1) = Some original_page →
  fs !! new_page_pdf_path = Some new_reader →
  new_reader !! 0%nat = Some new_page →
  _build_replacement_page original_page new_page = Ok composed →
  replace_page_in_pdf fs original_pdf_path new_page_pdf_path page_number
    output_pdf_path
  = Ok (write fs output_pdf_path
          (<[Z.to_nat (page_number - 1) := composed]> reader)).
Proof.
  intros Hreader Hpos Horiginal Hnew Hpage Hbuilt. unfold replace_page_in_pdf.
  rewrite (PdfReader_lookup _ _ _ Hreader). simpl.
  rewrite (for_each_pages reader
             (λ i p, [if decide (i = Z.to_nat (page_number - 1))
                      then composed else p])).
  - simpl. rewrite emit_pages_singleton. simpl.
    by rewrite imap_replace_at.
  - intros i p w Hp. rewrite (getitem_lookup _ _ _ Hp).
    destruct (Z.of_nat i =? page_number - 1) eqn:E.
    + apply Z.eqb_eq in E.
      assert (i = Z.to_nat (page_number - 1)) as -> by lia.
      rewrite decide_True by done.
      assert (p = original_page) as -> by congruence.
      rewrite (PdfReader_lookup _ _ _ Hnew). simpl.
      rewrite (getitem_lookup _ _ _ Hpage). simpl.
      by rewrite Hbuilt.
    + apply Z.eqb_neq in E. rewrite decide_False by lia. done.
Qed.

(** X2. For a page number inside [1, pageCount] and a replacement document
    with a first page, [replace_page_in_pdf] succeeds and writes the original
    pages with exactly the position [page_number - 1] overwritten by the page
    composed from the original page at that position and the replacement's
    first page; the files other than the output path are left as they
    were. *)
Theorem replace_page_in_range (fs : gmap string (list PageObject))
    (original_pdf_path new_page_pdf_path output_pdf_path : string)
    (page_number : Z) (reader new_reader : list PageObject)
    (new_page : PageObject) :
  fs !! original_pdf_path = Some reader →
  1 ≤ page_number ≤ Z.of_nat (length reader) →
  fs !! new_page_pdf_path = Some new_reader →
  new_reader !! 0%nat = Some new_page →
  ∃ original_page composed fs',
    reader !! Z.to_nat (page_number - 1) = Some original_page
    ∧ _build_replacement_page original_page new_page = Ok composed
    ∧ replace_page_in_pdf fs original_pdf_path new_page_pdf_path page_number
        output_pdf_path = Ok fs'
    ∧ fs' !! output_pdf_path
      = Some (<[Z.to_nat (page_number - 1) := composed]> reader)
    ∧ ∀ path, path ≠ output_pdf_path → fs' !! path = fs !! path.
Proof.
  intros Hreader Hrange Hnew Hpage.
  destruct (lookup_lt_is_Some_2 reader (Z.to_nat (page_number - 1)))
    as [original_page Horiginal]; [lia|].
  destruct (_build_replacement_page_Ok original_page new_page)
    as [composed Hbuilt].
  exists original_page, composed,
    (write fs output_pdf_path (<[Z.to_nat (page_number - 1) := composed]> reader)).
  split; [done|]. split; [done|]. split.
  - apply (replace_page_match _ _ _ _ _ _ new_reader original_page new_page);
      try done. lia.
  - split; [apply lookup_insert_eq|].
    intros path Hpath. unfold write. by rewrite lookup_insert_ne.
Qed.

Lemma replace_page_in_range_witness :
  ∃ composed fs',
    _build_replacement_page (letter "p2") business_card = Ok composed
    ∧ replace_page_in_pdf demo_fs "original.pdf" "new.pdf" 2 "out.pdf" = Ok fs'
    ∧ fs' !! "out.pdf"
      = Some [letter "p1"; composed; letter "p3"; letter "p4"; letter "p5"]
    ∧ fs' !! "original.pdf" = Some five_pages.
Proof.
  destruct (replace_page_in_range demo_fs "original.pdf" "new.pdf" "out.pdf" 2
              five_pages [business_card] business_card eq_refl)
    as (original_page & composed & fs' & Horiginal & Hbuilt & Hrun & Hout
        & Hframe); [simpl; lia | reflexivity | reflexivity |].
  injection Horiginal as <-.
  exists composed, fs'. split; [exact Hbuilt|]. split; [exact Hrun|].
  split; [exact Hout|].
  rewrite (Hframe "original.pdf") by discriminate. reflexivity.
Defined.

(** X3. For a page number inside [1, pageCount], [replace_page_in_pdf] needs
    the replacement: it raises [FileNotFoundError] when the replacement file
    does not exist and [IndexError] when the replacement document has no
    page, and then nothing is written. *)
Theorem replace_page_needs_replacement (fs : gmap string (list PageObject))
    (original_pdf_path new_page_pdf_path output_pdf_path : string)
    (page_number : Z) (reader : list PageObject) :
  fs !! original_pdf_path = Some reader →
  1 ≤ page_number ≤ Z.of_nat (length reader) →
  (fs !! new_page_pdf_path = None →
   replace_page_in_pdf fs original_pdf_path new_page_pdf_path page_number
     output_pdf_path = Raise FileNotFoundError)
  ∧ (fs !! new_page_pdf_path = Some [] →
     replace_page_in_pdf fs original_pdf_path new_page_pdf_path page_number
       output_pdf_path = Raise IndexError).
Proof.
  intros Hreader Hrange.
  assert (Hraise : ∀ e0,
            PdfReader fs new_page_pdf_path ≫= (λ r, getitem r 0) = Raise e0 →
            e0 = FileNotFoundError ∨ e0 = IndexError →
            replace_page_in_pdf fs original_pdf_path new_page_pdf_path
              page_number output_pdf_path = Raise e0).
  { intros e0 Hnew He0. unfold replace_page_in_pdf.
    rewrite (PdfReader_lookup _ _ _ Hreader). simpl.
    match goal with
    | |- for_each ?xs ?body ?w0 ≫= _ = _ =>
        destruct (for_each_raises (λ e, e = e0) xs body
                    (Z.to_nat (page_number - 1)) w0) as (e & -> & ->)
    end; [apply elem_of_range; lia | | | done].
    - intros w. exists e0.
      replace (Z.of_nat (Z.to_nat (page_number - 1)) =? page_number - 1)
        with true by (symmetry; apply Z.eqb_eq; lia).
      destruct (lookup_lt_is_Some_2 reader (Z.to_nat (page_number - 1)))
        as [p Hp]; [lia|].
      rewrite (getitem_lookup _ _ _ Hp). simpl.
      destruct (PdfReader fs new_page_pdf_path) as [r|]; simpl in *;
        [|congruence].
      destruct (getitem r 0) as [q|]; simpl in *; congruence.
    - intros i w e Hi Hbody. apply elem_of_range in Hi.
      destruct (lookup_lt_is_Some_2 reader i Hi) as [p Hp].
      rewrite (getitem_lookup _ _ _ Hp) in Hbody. simpl in Hbody.
      destruct (Z.of_nat i =? page_number - 1); [|discriminate].
      destruct (PdfReader fs new_page_pdf_path) as [r|]; simpl in *;
        [|congruence].
      destruct (getitem r 0) as [q|]; simpl in *; [|congruence].
      destruct (_build_replacement_page_Ok p q) as [c Hc].
      rewrite Hc in Hbody. discriminate. }
  split; intros Hnew;
    (apply Hraise; [unfold PdfReader; rewrite Hnew; reflexivity | auto]).
Qed.

Lemma replace_page_needs_replacement_witness :
  replace_page_in_pdf demo_fs "original.pdf" "missing.pdf" 5 "out.pdf"
  = Raise FileNotFoundError
  ∧ replace_page_in_pdf (<["blank.pdf" := []]> demo_fs) "original.pdf"
      "blank.pdf" 1 "out.pdf"
    = Raise IndexError.
Proof.
  split.
  - apply (replace_page_needs_replacement demo_fs "original.pdf" "missing.pdf"
             "out.pdf" 5 five_pages); [reflexivity | simpl; lia | reflexivity].
  - apply (replace_page_needs_replacement (<["blank.pdf" := []]> demo_fs)
             "original.pdf" "blank.pdf" "out.pdf" 1 five_pages);
      [reflexivity | simpl; lia | reflexivity].
Defined.

(** ** Single and batch replacement agree *)

(** X4. [replace_page_in_pdf] is [batch_replace_pages] with the one-entry
    mapping {page_number: new_page_pdf_path}: the two calls return the same
    result on every input, errors included. *)
Theorem replace_page_is_singleton_batch (fs : gmap string (list PageObject))
    (original_pdf_path new_page_pdf_path output_pdf_path : string)
    (page_number : Z) :
  replace_page_in_pdf fs original_pdf_path new_page_pdf_path page_number
    output_pdf_path
  = batch_replace_pages fs original_pdf_path {[page_number := new_page_pdf_path]}
      output_pdf_path.
Proof.
  unfold replace_page_in_pdf, batch_replace_pages.
  destruct (PdfReader fs original_pdf_path) as [reader|]; simpl; [|done].
  f_equal. apply for_each_ext. intros i w _.
  destruct (Z.of_nat i =? page_number - 1) eqn:E.
  - apply Z.eqb_eq in E.
    replace (Z.of_nat i + 1) with page_number by lia.
    by rewrite lookup_singleton_eq.
  - apply Z.eqb_neq in E. rewrite lookup_singleton_ne by lia. done.
Qed.

(** X5. [batch_replace_pages] looks at the mapping only at the page numbers
    1 .. pageCount: two mappings that agree there give the same result, so a
    key outside that range is ignored and its file is never opened. *)
Theorem batch_replace_pages_keys_in_range (fs : gmap string (list PageObject))
    (original_pdf_path output_pdf_path : string)
    (replacements1 replacements2 : gmap Z string) (reader : list PageObject) :
  fs !! original_pdf_path = Some reader →
  (∀ page_num, 1 ≤ page_num ≤ Z.of_nat (length reader) →
               replacements1 !! page_num = replacements2 !! page_num) →
  batch_replace_pages fs original_pdf_path replacements1 output_pdf_path
  = batch_replace_pages fs original_pdf_path replacements2 output_pdf_path.
Proof.
  intros Hreader Hagree. unfold batch_replace_pages.
  rewrite (PdfReader_lookup _ _ _ Hreader). simpl.
  f_equal. apply for_each_ext. intros i w Hi. apply elem_of_range in Hi.
  rewrite (Hagree (Z.of_nat i + 1)) by lia. done.
Qed.

Lemma batch_replace_pages_keys_in_range_witness :
  batch_replace_pages demo_fs "original.pdf" {[9 := "missing.pdf"]} "out.pdf"
  = batch_replace_pages demo_fs "original.pdf" ∅ "out.pdf".
Proof.
  apply (batch_replace_pages_keys_in_range demo_fs "original.pdf" "out.pdf"
           {[9 := "missing.pdf"]} ∅ five_pages eq_refl).
  intros page_num Hrange. simpl in Hrange.
  rewrite lookup_empty. apply lookup_singleton_ne. lia.
Defined.

(** ** What a batch replacement writes, position by position *)

Lemma batch_replace_pages_pointwise (fs : gmap string (list PageObject))
    (original_pdf_path output_pdf_path : string) (replacements : gmap Z string)
    (reader : list PageObject) (fs' : gmap string (list PageObject)) :
  fs !! original_pdf_path = Some reader →
  batch_replace_pages fs original_pdf_path replacements output_pdf_path = Ok fs' →
  ∃ writer,
    fs' = <[output_pdf_path := writer]> fs
    ∧ length writer = length reader
    ∧ ∀ (i : nat) p, reader !! i = Some p →
        written_at fs replacements writer i p.
Proof.
  intros Hreader Hrun. unfold batch_replace_pages in Hrun.
  rewrite (PdfReader_lookup _ _ _ Hreader) in Hrun. simpl in Hrun.
  apply bind_Ok in Hrun as (writer & Hloop & Hrun).
  injection Hrun as <-. exists writer. split; [done|].
  assert (Hinv : length writer = length reader
                 ∧ ∀ j p, (j < length reader)%nat → reader !! j = Some p →
                          written_at fs replacements writer j p).
  { revert Hloop.
    apply (for_range_invariant
             (λ i w, length w = i
                     ∧ ∀ j p, (j < i)%nat → reader !! j = Some p →
                              written_at fs replacements w j p)).
    { split; [done | intros; lia]. }
    intros i w1 w2 Hi [Hlen Hdone] Hbody.
    destruct (lookup_lt_is_Some_2 reader i Hi) as [q Hq].
    assert (Hw2 : ∃ c, w2 = w1 ++ [c]
                       ∧ written_at fs replacements (w1 ++ [c]) i q).
    { assert (Hlast : ∀ c, (w1 ++ [c]) !! i = Some c).
      { intros c. rewrite lookup_app_r by lia.
        by replace (i - length w1)%nat with 0%nat by lia. }
      unfold written_at.
      rewrite (getitem_lookup _ _ _ Hq) in Hbody.
      destruct (replacements !! (Z.of_nat i + 1)) as [path|];
        simpl in Hbody.
      - apply bind_Ok in Hbody as (new_reader & Hnew & Hbody).
        apply bind_Ok in Hbody as (new_page & Hpage & Hbody).
        apply bind_Ok in Hbody as (c & Hc & Hbody).
        injection Hbody as <-. exists c. split; [done|].
        exists new_reader, new_page, c.
        apply PdfReader_Ok in Hnew. unfold getitem in Hpage.
        destruct (new_reader !! 0%nat) eqn:E; [|discriminate].
        injection Hpage as ->. done.
      - injection Hbody as <-. exists q. split; [done|]. apply Hlast. }
    destruct Hw2 as (c & -> & Hc). split.
    - rewrite length_app. simpl. lia.
    - intros j p Hj Hp. destruct (decide (j = i)) as [->|Hne].
      + assert (p = q) as -> by congruence. done.
      + specialize (Hdone j p ltac:(lia) Hp). unfold written_at in *.
        rewrite lookup_app_l by lia. done. }
  destruct Hinv as [Hlen Hall]. split; [done|].
  intros i p Hp. apply Hall; [|done]. by apply lookup_lt_Some in Hp.
Qed.

(** X6. After a successful [batch_replace_pages], every position whose page
    number is a key of the mapping holds the page composed from the original
    page at that same position and the first page of the document the key
    names: its box is the visual box of that original page (each replaced
    page is sized against its own original) and it reads rotation 0. *)
Theorem batch_replace_pages_replaced (fs fs' : gmap string (list PageObject))
    (original_pdf_path output_pdf_path path : string)
    (replacements : gmap Z string) (reader : list PageObject)
    (i : nat) (p : PageObject) :
  fs !! original_pdf_path = Some reader →
  batch_replace_pages fs original_pdf_path replacements output_pdf_path = Ok fs' →
  reader !! i = Some p →
  replacements !! (Z.of_nat i + 1) = Some path →
  ∃ writer new_reader new_page rot composed,
    fs' !! output_pdf_path = Some writer
    ∧ fs !! path = Some new_reader
    ∧ new_reader !! 0%nat = Some new_page
    ∧ _page_rotation p = Ok rot
    ∧ _build_replacement_page p new_page = Ok composed
    ∧ writer !! i = Some composed
    ∧ mediabox composed = visual_box p rot
    ∧ _page_rotation composed = Ok 0.
Proof.
  intros Hreader Hrun Hp Hkey.
  destruct (batch_replace_pages_pointwise _ _ _ _ _ _ Hreader Hrun)
    as (writer & -> & _ & Hall).
  specialize (Hall i p Hp). unfold written_at in Hall. rewrite Hkey in Hall.
  destruct Hall as (new_reader & new_page & composed & Hnew & Hpage & Hbuilt
                    & Hwritten).
  destruct (_page_rotation_range p) as (rot & Hrot & _).
  exists writer, new_reader, new_page, rot, composed.
  split; [apply lookup_insert_eq|]. repeat (split; [done|]).
  rewrite (_build_replacement_page_fit _ _ _ Hrot) in Hbuilt.
  destruct (_fit_page_with_padding_box new_page
              (width (visual_box p rot)) (height (visual_box p rot)))
    as (page & Hfit & Hbox & Hrotation & _).
  assert (page = composed) as -> by congruence. split.
  - rewrite Hbox. by destruct (visual_box p rot).
  - by apply (_page_rotation_int composed 0).
Qed.

Lemma batch_replace_pages_replaced_witness :
  ∃ writer composed,
    (<["out.pdf" := writer]> mixed_fs) !! "out.pdf" = Some writer
    ∧ writer !! 1%nat = Some composed
    ∧ mediabox composed = {| width := 792; height := 612 |}.
Proof.
  destruct (batch_replace_pages_succeeds mixed_fs "original.pdf" "out.pdf"
              {[2 := "new.pdf"]} [letter "p1"; sideways_letter] eq_refl)
    as [fs' Hrun].
  { intros i path Hi Hkey. exists [business_card], business_card.
    destruct i as [|[|i]]; simpl in Hi; [discriminate | | lia].
    by injection Hkey as <-. }
  destruct (batch_replace_pages_replaced mixed_fs fs' "original.pdf" "out.pdf"
              "new.pdf" {[2 := "new.pdf"]} [letter "p1"; sideways_letter]
              1 sideways_letter eq_refl Hrun eq_refl eq_refl)
    as (writer & new_reader & new_page & rot & composed & Hout & _ & _ & Hrot
        & _ & Hwritten & Hbox & _).
  exists writer, composed. split; [apply lookup_insert_eq|].
  split; [exact Hwritten|]. rewrite Hbox. injection Hrot as <-. reflexivity.
Defined.

(** X7. [batch_replace_pages] is all or nothing: when a key inside
    1 .. pageCount names a file that does not exist or a document with no
    page, the call raises ([FileNotFoundError] or [IndexError]) and no output
    is written, whatever the other keys are. *)
Theorem batch_replace_pages_all_or_nothing (fs : gmap string (list PageObject))
    (original_pdf_path output_pdf_path path : string)
    (replacements : gmap Z string) (reader : list PageObject) (i : nat) :
  fs !! original_pdf_path = Some reader →
  (i < length reader)%nat →
  replacements !! (Z.of_nat i + 1) = Some path →
  fs !! path = None ∨ fs !! path = Some [] →
  ∃ e, batch_replace_pages fs original_pdf_path replacements output_pdf_path
       = Raise e
       ∧ (e = FileNotFoundError ∨ e = IndexError).
Proof.
  intros Hreader Hi Hkey Hbad. unfold batch_replace_pages.
  rewrite (PdfReader_lookup _ _ _ Hreader). simpl.
  match goal with
  | |- ∃ _, for_each ?xs ?body ?w0 ≫= _ = _ ∧ _ =>
      destruct (for_each_raises
                  (λ e, e = FileNotFoundError ∨ e = IndexError) xs body i w0)
        as (e & -> & He)
  end; [by apply elem_of_range | | | eauto].
  - intros w. rewrite Hkey.
    destruct (lookup_lt_is_Some_2 reader i Hi) as [p Hp].
    rewrite (getitem_lookup _ _ _ Hp). simpl. unfold PdfReader.
    destruct Hbad as [-> | ->]; simpl; eauto.
  - intros j w e Hj Hbody. apply elem_of_range in Hj.
    destruct (lookup_lt_is_Some_2 reader j Hj) as [p Hp].
    rewrite (getitem_lookup _ _ _ Hp) in Hbody. simpl in Hbody.
    destruct (replacements !! (Z.of_nat j + 1)) as [path'|]; [|discriminate].
    unfold PdfReader, getitem in Hbody.
    destruct (fs !! path') as [[|q r]|]; simpl in Hbody;
      [right; congruence | | left; congruence].
    destruct (_build_replacement_page_Ok p q) as [c Hc].
    rewrite Hc in Hbody. discriminate.
Qed.

Lemma batch_replace_pages_all_or_nothing_witness :
  ∃ e, batch_replace_pages demo_fs "original.pdf"
         {[1 := "new.pdf"; 5 := "missing.pdf"]} "out.pdf" = Raise e
       ∧ (e = FileNotFoundError ∨ e = IndexError).
Proof.
  apply (batch_replace_pages_all_or_nothing demo_fs "original.pdf" "out.pdf"
           "missing.pdf" {[1 := "new.pdf"; 5 := "missing.pdf"]} five_pages 4).
  - reflexivity.
  - simpl. lia.
  - reflexivity.
  - left. reflexivity.
Defined.

(** ** A batch is a sequence of smaller batches *)

Lemma written_at_composed (fs : gmap string (list PageObject))
    (replacements : gmap Z string) (writer : list PageObject) (i : nat)
    (p : PageObject) (path : string) :
  written_at fs replacements writer i p →
  replacements !! (Z.of_nat i + 1) = Some path →
  ∃ new_reader new_page composed,
    fs !! path = Some new_reader
    ∧ new_reader !! 0%nat = Some new_page
    ∧ _build_replacement_page p new_page = Ok composed
    ∧ writer !! i = Some composed.
Proof. unfold written_at. intros H Hkey. by rewrite Hkey in H. Qed.

Lemma written_at_copied (fs : gmap string (list PageObject))
    (replacements : gmap Z string) (writer : list PageObject) (i : nat)
    (p : PageObject) :
  written_at fs replacements writer i p →
  replacements !! (Z.of_nat i + 1) = None →
  writer !! i = Some p.
Proof. unfold written_at. intros H Hkey. by rewrite Hkey in H. Qed.

(** X8. Splitting a batch: for two mappings with disjoint keys, running
    [batch_replace_pages] with the first into a temporary file and then with
    the second on that file gives the same output document as one call with
    the union of the mappings, provided the temporary file is none of the
    second mapping's replacement files. In particular the order in which the
    keys of a batch are served does not matter. *)
Theorem batch_replace_pages_split (fs fs1 fs2 : gmap string (list PageObject))
    (original_pdf_path tmp_pdf_path output_pdf_path : string)
    (replacements1 replacements2 : gmap Z string) (reader : list PageObject) :
  fs !! original_pdf_path = Some reader →
  replacements1 ##ₘ replacements2 →
  (∀ page_num, replacements2 !! page_num ≠ Some tmp_pdf_path) →
  batch_replace_pages fs original_pdf_path replacements1 tmp_pdf_path = Ok fs1 →
  batch_replace_pages fs1 tmp_pdf_path replacements2 output_pdf_path = Ok fs2 →
  ∃ fs3,
    batch_replace_pages fs original_pdf_path (replacements1 ∪ replacements2)
      output_pdf_path = Ok fs3
    ∧ fs3 !! output_pdf_path = fs2 !! output_pdf_path.
Proof.
  intros Hreader Hdisj Htmp Hrun1 Hrun2.
  destruct (batch_replace_pages_pointwise _ _ _ _ _ _ Hreader Hrun1)
    as (writer1 & -> & Hlen1 & Hall1).
  assert (Htmp1 : (<[tmp_pdf_path := writer1]> fs) !! tmp_pdf_path = Some writer1)
    by apply lookup_insert_eq.
  destruct (batch_replace_pages_pointwise _ _ _ _ _ _ Htmp1 Hrun2)
    as (writer2 & -> & Hlen2 & Hall2).
  assert (Hfs1 : ∀ k path, replacements2 !! k = Some path →
                           (<[tmp_pdf_path := writer1]> fs) !! path = fs !! path).
  { intros k path Hk. apply lookup_insert_ne. intros <-. by apply (Htmp k). }
  assert (Hcases : ∀ k,
            (∃ path, replacements1 !! k = Some path
                     ∧ replacements2 !! k = None
                     ∧ (replacements1 ∪ replacements2) !! k = Some path)
            ∨ (replacements1 !! k = None
               ∧ (replacements1 ∪ replacements2) !! k = replacements2 !! k)).
  { intros k. destruct (replacements1 !! k) as [path|] eqn:E1.
    - left. exists path. split; [done|]. split.
      + by apply (map_disjoint_Some_l replacements1 replacements2 k path).
      + by apply lookup_union_Some_l.
    - right. split; [done|]. by apply lookup_union_r. }
  destruct (batch_replace_pages_succeeds fs original_pdf_path output_pdf_path
              (replacements1 ∪ replacements2) reader Hreader) as [fs3 Hrun3].
  { intros i path Hi Hkey.
    destruct (lookup_lt_is_Some_2 reader i Hi) as [p Hp].
    destruct (Hcases (Z.of_nat i + 1)) as [(path1 & H1 & _ & Hu)|[H1 Hu]].
    - assert (path1 = path) as -> by congruence.
      destruct (written_at_composed _ _ _ _ _ _ (Hall1 i p Hp) H1)
        as (d & np & _ & Hd & Hnp & _).
      eauto.
    - rewrite Hu in Hkey.
      pose proof (written_at_copied _ _ _ _ _ (Hall1 i p Hp) H1) as Hw1.
      destruct (written_at_composed _ _ _ _ _ _ (Hall2 i p Hw1) Hkey)
        as (d & np & _ & Hd & Hnp & _).
      rewrite (Hfs1 _ _ Hkey) in Hd. eauto. }
  exists fs3. split; [done|].
  destruct (batch_replace_pages_pointwise _ _ _ _ _ _ Hreader Hrun3)
    as (writer3 & -> & Hlen3 & Hall3).
  rewrite !lookup_insert_eq. f_equal. apply list_eq. intros i.
  destruct (reader !! i) as [p|] eqn:Hp.
  - destruct (Hcases (Z.of_nat i + 1)) as [(path & H1 & H2 & Hu)|[H1 Hu]].
    + destruct (written_at_composed _ _ _ _ _ _ (Hall1 i p Hp) H1)
        as (d & np & c & Hd & Hnp & Hc & Hw1).
      destruct (written_at_composed _ _ _ _ _ _ (Hall3 i p Hp) Hu)
        as (d' & np' & c' & Hd' & Hnp' & Hc' & Hw3).
      rewrite (written_at_copied _ _ _ _ _ (Hall2 i c Hw1) H2).
      congruence.
    + pose proof (written_at_copied _ _ _ _ _ (Hall1 i p Hp) H1) as Hw1.
      destruct (replacements2 !! (Z.of_nat i + 1)) as [path|] eqn:H2.
      * destruct (written_at_composed _ _ _ _ _ _ (Hall2 i p Hw1) H2)
          as (d & np & c & Hd & Hnp & Hc & Hw2).
        destruct (written_at_composed _ _ _ _ _ _ (Hall3 i p Hp) Hu)
          as (d' & np' & c' & Hd' & Hnp' & Hc' & Hw3).
        rewrite (Hfs1 _ _ H2) in Hd. congruence.
      * rewrite (written_at_copied _ _ _ _ _ (Hall2 i p Hw1) H2).
        by rewrite (written_at_copied _ _ _ _ _ (Hall3 i p Hp) Hu).
  - apply lookup_ge_None in Hp.
    rewrite !lookup_ge_None_2 by lia. done.
Qed.

Lemma batch_replace_pages_split_witness :
  ∃ fs1 fs2 fs3,
    batch_replace_pages batch_fs "original.pdf" {[2 := "a.pdf"]} "tmp.pdf"
    = Ok fs1
    ∧ batch_replace_pages fs1 "tmp.pdf" {[4 := "b.pdf"]} "out.pdf" = Ok fs2
    ∧ batch_replace_pages batch_fs "original.pdf"
        ({[2 := "a.pdf"]} ∪ {[4 := "b.pdf"]}) "out.pdf" = Ok fs3
    ∧ fs3 !! "out.pdf" = fs2 !! "out.pdf".
Proof.
  destruct (batch_replace_pages_succeeds batch_fs "original.pdf" "tmp.pdf"
              {[2 := "a.pdf"]} five_pages eq_refl) as [fs1 Hrun1].
  { intros i path Hi Hkey.
    apply lookup_singleton_Some in Hkey as [_ <-].
    exists [business_card], business_card. split; reflexivity. }
  destruct (batch_replace_pages_pointwise batch_fs "original.pdf" "tmp.pdf"
              {[2 := "a.pdf"]} five_pages fs1 eq_refl Hrun1)
    as (writer1 & Hfs1 & Hlen1 & _).
  assert (Htmp : fs1 !! "tmp.pdf" = Some writer1)
    by (rewrite Hfs1; apply lookup_insert_eq).
  destruct (batch_replace_pages_succeeds fs1 "tmp.pdf" "out.pdf"
              {[4 := "b.pdf"]} writer1 Htmp) as [fs2 Hrun2].
  { intros i path Hi Hkey.
    apply lookup_singleton_Some in Hkey as [_ <-].
    exists [zero_width_page], zero_width_page. split; [|reflexivity].
    rewrite Hfs1. rewrite lookup_insert_ne by discriminate. reflexivity. }
  destruct (batch_replace_pages_split batch_fs fs1 fs2 "original.pdf" "tmp.pdf"
              "out.pdf" {[2 := "a.pdf"]} {[4 := "b.pdf"]} five_pages)
    as (fs3 & Hrun3 & Hsame).
  - reflexivity.
  - apply map_disjoint_singleton_l. apply lookup_singleton_ne. lia.
  - intros page_num Hkey.
    apply lookup_singleton_Some in Hkey as [_ Hkey]. discriminate.
  - exact Hrun1.
  - exact Hrun2.
  - exists fs1, fs2, fs3. repeat split; assumption.
Defined.

(** ** Composed pages are already normalized *)

(** X9. Composing against a composed page changes no size: a page returned
    by [_build_replacement_page] reads rotation 0, so building another
    replacement against it keeps its box, whatever the rotation of the first
    original was. Replacing the same position again therefore keeps the page
    size. *)
Theorem build_replacement_page_stable
    (original_page new_page other_page composed : PageObject) :
  _build_replacement_page original_page new_page = Ok composed →
  ∃ composed',
    _build_replacement_page composed other_page = Ok composed'
    ∧ mediabox composed' = mediabox composed.
Proof.
  intros Hbuilt.
  destruct (_page_rotation_range original_page) as (rot & Hrot & _).
  rewrite (_build_replacement_page_fit _ _ _ Hrot) in Hbuilt.
  destruct (_fit_page_with_padding_box new_page
              (width (visual_box original_page rot))
              (height (visual_box original_page rot)))
    as (page & Hfit & _ & Hrotation & _).
  assert (page = composed) as -> by congruence.
  assert (Hzero : _page_rotation composed = Ok 0)
    by apply (_page_rotation_int composed 0 Hrotation).
  rewrite (_build_replacement_page_fit _ _ _ Hzero).
  destruct (_fit_page_with_padding_box other_page
              (width (visual_box composed 0)) (height (visual_box composed 0)))
    as (composed' & Hfit' & Hbox' & _).
  exists composed'. split; [done|]. rewrite Hbox'.
  unfold visual_box. simpl. by destruct (mediabox composed).
Qed.

Lemma build_replacement_page_stable_witness :
  ∃ composed composed',
    _build_replacement_page sideways_letter business_card = Ok composed
    ∧ _build_replacement_page composed zero_width_page = Ok composed'
    ∧ mediabox composed' = mediabox composed.
Proof.
  destruct (_build_replacement_page_Ok sideways_letter business_card)
    as [composed Hbuilt].
  destruct (build_replacement_page_stable sideways_letter business_card
              zero_width_page composed Hbuilt) as (composed' & Hagain & Hbox).
  exists composed, composed'. repeat split; assumption.
Defined.

(** X10. Only the rotation modulo 360 matters: shifting an original's integer
    rotation by any multiple of 360 changes neither the normalized rotation
    nor the page [_build_replacement_page] returns. *)
Theorem build_replacement_page_rotation_period
    (original_page new_page : PageObject) (z turns : Z) :
  _page_rotation (with_rotation original_page (z + 360 * turns))
  = _page_rotation (with_rotation original_page z)
  ∧ _build_replacement_page (with_rotation original_page (z + 360 * turns))
      new_page
    = _build_replacement_page (with_rotation original_page z) new_page.
Proof.
  assert (Hperiod : _page_rotation (with_rotation original_page (z + 360 * turns))
                    = _page_rotation (with_rotation original_page z)).
  { rewrite (_page_rotation_int _ (z + 360 * turns)) by done.
    rewrite (_page_rotation_int _ z) by done.
    f_equal. rewrite (Z.mul_comm 360 turns). apply Z_mod_plus_full. }
  split; [exact Hperiod|].
  unfold _build_replacement_page. rewrite Hperiod. reflexivity.
Qed.

(** ** Insertion opens the new page first *)

(** X11. [insert_page] reads the first page of the original and then the new
    page before it looks at [after_page]: on a non-empty original it raises
    [FileNotFoundError] when the new-page file does not exist and
    [IndexError] when the new-page document has no page, for every
    [after_page], in range or not, and writes nothing. *)
Theorem insert_page_needs_new_page (fs : gmap string (list PageObject))
    (original_pdf_path new_page_pdf_path output_pdf_path : string)
    (after_page : Z) (reader : list PageObject) (reference_page : PageObject) :
  fs !! original_pdf_path = Some reader →
  reader !! 0%nat = Some reference_page →
  (fs !! new_page_pdf_path = None →
   insert_page fs original_pdf_path new_page_pdf_path after_page output_pdf_path
   = Raise FileNotFoundError)
  ∧ (fs !! new_page_pdf_path = Some [] →
     insert_page fs original_pdf_path new_page_pdf_path after_page
       output_pdf_path = Raise IndexError).
Proof.
  intros Hreader Href. unfold insert_page.
  rewrite (PdfReader_lookup _ _ _ Hreader). simpl.
  rewrite (getitem_lookup _ _ _ Href). simpl.
  unfold PdfReader. split; intros ->; reflexivity.
Qed.

Lemma insert_page_needs_new_page_witness :
  insert_page demo_fs "original.pdf" "missing.pdf" 99 "out.pdf"
  = Raise FileNotFoundError.
Proof.
  apply (insert_page_needs_new_page demo_fs "original.pdf" "missing.pdf"
           "out.pdf" 99 five_pages (letter "p1")); reflexivity.
Defined.

(** ** Counting the pages of what was written *)

(** X12. [get_page_count] on the output of a successful operation: it
    returns the original's count after [replace_page_in_pdf] and
    [batch_replace_pages], and after [insert_page] one more when [after_page]
    lies in [0, count] and the same count otherwise. This holds also when the
    output path is the original's own path. *)
Theorem get_page_count_after (fs fs' : gmap string (list PageObject))
    (original_pdf_path new_page_pdf_path output_pdf_path : string)
    (page_number after_page : Z) (replacements : gmap Z string) (count : nat) :
  get_page_count fs original_pdf_path = Ok count →
  (replace_page_in_pdf fs original_pdf_path new_page_pdf_path page_number
     output_pdf_path = Ok fs' →
   get_page_count fs' output_pdf_path = Ok count)
  ∧ (batch_replace_pages fs original_pdf_path replacements output_pdf_path
     = Ok fs' →
     get_page_count fs' output_pdf_path = Ok count)
  ∧ (insert_page fs original_pdf_path new_page_pdf_path after_page
       output_pdf_path = Ok fs' →
     get_page_count fs' output_pdf_path
     = Ok (if decide (0 ≤ after_page ≤ Z.of_nat count)
           then S count else count)).
Proof.
  intros Hcount. unfold get_page_count in Hcount.
  apply bind_Ok in Hcount as (reader & Hreader & Hcount).
  injection Hcount as <-. apply PdfReader_Ok in Hreader.
  assert (Hread : ∀ writer,
            get_page_count (<[output_pdf_path := writer]> fs) output_pdf_path
            = Ok (length writer)).
  { intros writer. unfold get_page_count, PdfReader.
    by rewrite lookup_insert_eq. }
  split; [|split]; intros Hrun.
  - destruct (replace_page_length _ _ _ _ _ _ _ Hreader Hrun)
      as (writer & Hout & Hlen).
    unfold get_page_count, PdfReader. rewrite Hout. simpl. by rewrite Hlen.
  - destruct (batch_replace_pages_pointwise _ _ _ _ _ _ Hreader Hrun)
      as (writer & -> & Hlen & _).
    by rewrite Hread, Hlen.
  - destruct (insert_page_Ok _ _ _ _ _ _ _ Hreader Hrun) as (prepared & ->).
    unfold write. by rewrite Hread, length_inserted.
Qed.

Lemma get_page_count_after_witness :
  get_page_count demo_fs "original.pdf" = Ok 5%nat
  ∧ get_page_count
      (write demo_fs "original.pdf" (inserted five_pages 5 prepared_card))
      "original.pdf" = Ok 6%nat.
Proof.
  split; [reflexivity|].
  destruct (get_page_count_after demo_fs
              (write demo_fs "original.pdf" (inserted five_pages 5 prepared_card))
              "original.pdf" "new.pdf" "original.pdf" 0 5 ∅ 5 eq_refl)
    as (_ & _ & Hinsert).
  apply Hinsert. reflexivity.
Defined.

(** ** Text extraction *)

Lemma formatted_pages_foldl (pages : list str) (s : nat) (acc : list str) :
  foldl (λ formatted_pages '(i, page_text),
           match strip page_text with
           | [] => formatted_pages
           | _ => formatted_pages
                  ++ [page_block (i + 1) (truncate (strip page_text))]
           end)
        acc (imap (λ i x, ((s + i)%nat, x)) pages)
  = acc ++ omap id (imap (λ i x, block_of (s + i) x) pages).
Proof.
  revert s acc. induction pages as [|page_text pages IH]; intros s acc; simpl.
  { by rewrite app_nil_r. }
  rewrite (imap_ext _ (λ i x, ((S s + i)%nat, x)))
    by (intros; unfold compose; f_equal; lia).
  rewrite IH.
  rewrite (imap_ext ((λ i x, block_of (s + i) x) ∘ S)
             (λ i x, block_of (S s + i) x))
    by (intros; unfold compose; f_equal; lia).
  rewrite Nat.add_0_r. unfold block_of at 2.
  destruct (strip page_text); simpl; [done|]. by rewrite <- app_assoc.
Qed.

Lemma formatted_pages_omap (raw_text : str) :
  formatted_pages raw_text = omap id (imap block_of (split FF raw_text)).
Proof.
  unfold formatted_pages, enumerate.
  apply (formatted_pages_foldl (split FF raw_text) 0 []).
Qed.

Lemma block_of_Some (i : nat) (page_text block : str) :
  block_of i page_text = Some block
  ↔ strip page_text ≠ []
    ∧ block = page_block (i + 1) (truncate (strip page_text)).
Proof.
  unfold block_of. destruct (strip page_text) as [|c r]; split.
  - discriminate.
  - by intros [? _].
  - intros [= <-]. done.
  - intros [_ ->]. done.
Qed.

Lemma formatted_pages_omap_elem (raw_text block : str) :
  block ∈ formatted_pages raw_text →
  ∃ (i : nat) page_text,
    split FF raw_text !! i = Some page_text
    ∧ strip page_text ≠ []
    ∧ block = page_block (i + 1) (truncate (strip page_text)).
Proof.
  rewrite formatted_pages_omap, list_elem_of_omap.
  intros (o & Ho & Hblock). simpl in Hblock. subst o.
  apply elem_of_lookup_imap in Ho as (i & page_text & Hblock & Hpage).
  symmetry in Hblock. apply block_of_Some in Hblock as [Hne ->].
  eauto.
Qed.

(** X13. The page tags of [extract_full_text] carry the position of the page
    in the raw text, not a running count: a block is written exactly for
    each form-feed-separated page whose text is not blank, it is tagged with
    that page's 1-based position and holds the stripped, truncated text; a
    blank page is skipped without renumbering the pages after it. *)
Theorem formatted_pages_blocks (raw_text block : str) :
  (block ∈ formatted_pages raw_text
   ↔ ∃ (i : nat) page_text,
       split FF raw_text !! i = Some page_text
       ∧ strip page_text ≠ []
       ∧ block = page_block (i + 1) (truncate (strip page_text)))
  ∧ (length (formatted_pages raw_text) ≤ length (split FF raw_text))%nat.
Proof.
  rewrite formatted_pages_omap. split.
  - rewrite list_elem_of_omap. split.
    + intros Hblock. apply formatted_pages_omap_elem.
      by rewrite formatted_pages_omap, list_elem_of_omap.
    + intros (i & page_text & Hpage & Hne & ->).
      exists (block_of i page_text). split.
      * by apply elem_of_lookup_imap_2.
      * simpl. apply block_of_Some. done.
  - rewrite <- (length_imap block_of (split FF raw_text)).
    generalize (imap block_of (split FF raw_text)). intros blocks.
    induction blocks as [|o blocks IH]; [done|].
    change (omap id (o :: blocks))
      with (match o with
            | Some b => b :: omap id blocks
            | None => omap id blocks
            end).
    destruct o; simpl; lia.
Qed.

Lemma formatted_pages_blocks_witness :
  page_block 3 (str_of "x y") ∈ formatted_pages three_pages_text.
Proof.
  apply (proj1 (formatted_pages_blocks three_pages_text
                  (page_block 3 (str_of "x y")))).
  exists 2%nat, (str_of " x y "). repeat split. discriminate.
Defined.

(** X14. A run that fails and a document without text are told apart: on
    [CalledProcessError] [extract_full_text] returns the empty string, while
    for a raw text whose pages are all blank (an empty output included) it
    returns the wrapper around nothing, and every completed run returns a
    non-empty string. *)
Theorem extract_full_text_blank (raw_text : str) :
  (∀ page_text, page_text ∈ split FF raw_text → strip page_text = []) →
  extract_full_text (Completed raw_text)
  = Ok (str_of "<document_context>" ++ [LF] ++ [LF]
        ++ str_of "</document_context>")
  ∧ extract_full_text CalledProcessError = Ok []
  ∧ ∀ stdout text, extract_full_text (Completed stdout) = Ok text → text ≠ [].
Proof.
  intros Hblank. split; [|split].
  - unfold extract_full_text.
    assert (formatted_pages raw_text = []) as ->; [|reflexivity].
    apply elem_of_nil_inv. intros block Hblock.
    apply formatted_pages_omap_elem in Hblock
      as (i & page_text & Hpage & Hne & _).
    apply Hne, Hblank. by apply list_elem_of_lookup_2 in Hpage.
  - reflexivity.
  - intros stdout text [= <-]. discriminate.
Qed.

Lemma extract_full_text_blank_witness :
  extract_full_text (Completed ([32; LF; FF; 9]%N))
  = Ok (str_of "<document_context>" ++ [LF] ++ [LF]
        ++ str_of "</document_context>").
Proof.
  apply (extract_full_text_blank [32; LF; FF; 9]%N).
  intros page_text Hpage. simpl in Hpage.
  apply elem_of_cons in Hpage as [->|Hpage]; [reflexivity|].
  apply elem_of_cons in Hpage as [->|Hpage]; [reflexivity|].
  by apply elem_of_nil in Hpage.
Defined.

(** *** Stripping and truncating *)

Lemma lstrip_head (s r : str) (c : N) : lstrip s = c :: r → isspace c = false.
Proof.
  induction s as [|a s IH]; simpl; [discriminate|].
  destruct (isspace a) eqn:E; [done|]. by intros [= <- _].
Qed.

Lemma lstrip_suffix (s : str) : ∃ pre, s = pre ++ lstrip s.
Proof.
  induction s as [|a s [pre IH]]; simpl; [by exists []|].
  destruct (isspace a).
  - exists (a :: pre). simpl. by f_equal.
  - by exists [].
Qed.

Lemma rstrip_prefix (s : str) : ∃ post, s = rstrip s ++ post.
Proof.
  unfold rstrip. destruct (lstrip_suffix (reverse s)) as [pre Hpre].
  exists (reverse pre). rewrite <- reverse_app, <- Hpre.
  by rewrite reverse_involutive.
Qed.

Lemma strip_ends (s : str) :
  strip s ≠ [] →
  ∃ c c', head (strip s) = Some c ∧ isspace c = false
          ∧ last (strip s) = Some c' ∧ isspace c' = false.
Proof.
  intros Hne. unfold strip in *.
  destruct (rstrip_prefix (lstrip s)) as [post Hpost].
  destruct (rstrip (lstrip s)) as [|c r] eqn:Hstrip; [done|].
  assert (Hc : isspace c = false).
  { apply (lstrip_head s (r ++ post)). by rewrite Hpost. }
  assert (Hlast : ∃ c', last (c :: r) = Some c' ∧ isspace c' = false).
  { rewrite <- Hstrip. unfold rstrip. rewrite last_reverse.
    destruct (lstrip (reverse (lstrip s))) as [|c' r'] eqn:E.
    - unfold rstrip in Hstrip. rewrite E in Hstrip. discriminate.
    - exists c'. split; [done|]. by apply (lstrip_head _ _ _ E). }
  destruct Hlast as (c' & Hc' & Hspace). by exists c, c'.
Qed.

Lemma length_truncate (text : str) : (length (truncate text) ≤ 2014)%nat.
Proof.
  unfold truncate. destruct (2000 <? length text)%nat eqn:E.
  - apply Nat.ltb_lt in E. rewrite length_app, length_take.
    change (length (str_of "...[truncated]")) with 14%nat. lia.
  - apply Nat.ltb_ge in E. lia.
Qed.

Lemma truncate_ends (text : str) (c c' : N) :
  head text = Some c → isspace c = false →
  last text = Some c' → isspace c' = false →
  ∃ d, head (truncate text) = Some c
       ∧ last (truncate text) = Some d ∧ isspace d = false.
Proof.
  intros Hhead Hc Hlast Hc'. unfold truncate.
  destruct (2000 <? length text)%nat; [|eauto].
  exists 93%N. split; [|split; [|reflexivity]].
  - destruct text as [|a text]; [done|]. injection Hhead as ->.
    change 2000%nat with (S 1999). reflexivity.
  - rewrite last_app.
    change (last (str_of "...[truncated]")) with (Some 93%N). reflexivity.
Qed.

(** X15. Every block [extract_full_text] writes is tagged with a page number
    between 1 and the number of form-feed-separated pages, and holds a text
    that is not empty, has at most 2014 code points (2000 plus the
    truncation mark), and neither starts nor ends with whitespace. *)
Theorem formatted_pages_bodies (raw_text block : str) :
  block ∈ formatted_pages raw_text →
  ∃ (n : nat) body c c',
    block = page_block n body
    ∧ (1 ≤ n ≤ length (split FF raw_text))%nat
    ∧ (length body ≤ 2014)%nat
    ∧ head body = Some c ∧ isspace c = false
    ∧ last body = Some c' ∧ isspace c' = false.
Proof.
  intros Hblock.
  apply formatted_pages_omap_elem in Hblock as (i & page_text & Hpage & Hne & ->).
  destruct (strip_ends page_text Hne) as (c & c' & Hhead & Hc & Hlast & Hc').
  destruct (truncate_ends _ _ _ Hhead Hc Hlast Hc') as (d & Hhead' & Hlast' & Hd).
  exists (i + 1)%nat, (truncate (strip page_text)), c, d.
  split; [done|]. split.
  - apply lookup_lt_Some in Hpage. lia.
  - split; [apply length_truncate|]. done.
Qed.

Lemma formatted_pages_bodies_witness :
  ∃ (n : nat) body c c',
    page_block 3 (str_of "x y") = page_block n body
    ∧ (1 ≤ n ≤ length (split FF three_pages_text))%nat
    ∧ (length body ≤ 2014)%nat
    ∧ head body = Some c ∧ isspace c = false
    ∧ last body = Some c' ∧ isspace c' = false.
Proof.
  apply (formatted_pages_bodies three_pages_text (page_block 3 (str_of "x y"))).
  vm_compute. apply list_elem_of_further, list_elem_of_here.
Defined.

(** ** The dependency check *)

(** X16. [check_system_dependencies] returns normally exactly when both
    [pdftotext] and [tesseract] are found. Otherwise it raises, and the
    message names the missing tools, [pdftotext] first, and no tool that was
    found. On the values [os.name] takes (posix, nt, java) the suggested
    command is never the [brew] one, which is tied to a name [os.name] does
    not take; a posix system, macOS included, is told to use [apt-get]. *)
Theorem check_system_dependencies_missing (which : string → option string)
    (os_name : string) :
  (check_system_dependencies which os_name = None
   ↔ not_found which "pdftotext" = false ∧ not_found which "tesseract" = false)
  ∧ (∀ message,
       check_system_dependencies which os_name = Some message →
       ∃ deps,
         message
         = "Missing system dependencies: " +:+ deps +:+ newline +:+ newline
           +:+ "Installation:" +:+ newline +:+ install_cmd os_name
           +:+ newline +:+ newline
           +:+ "See https://github.com/gavrielc/Nano-PDF#readme for more details."
         ∧ deps
           = join_names
               (filter (λ entry, not_found which entry.1 = true)
                  [("pdftotext", "pdftotext (poppler/poppler-utils)");
                   ("tesseract", "tesseract")]).*2)
  ∧ (os_name ∈ ["posix"; "nt"; "java"] →
     install_cmd os_name ≠ "brew install poppler tesseract"
     ∧ (os_name = "posix" →
        install_cmd os_name
        = "sudo apt-get install poppler-utils tesseract-ocr")).
Proof.
  split; [|split].
  - unfold check_system_dependencies.
    destruct (not_found which "pdftotext"), (not_found which "tesseract");
      simpl; split; try done; intros [? ?]; done.
  - intros message. unfold check_system_dependencies.
    destruct (not_found which "pdftotext") eqn:E1,
             (not_found which "tesseract") eqn:E2;
      simpl; intros [= <-]; eexists; (split; [reflexivity|]);
      rewrite !filter_cons, filter_nil; simpl; rewrite E1, E2; reflexivity.
  - intros Hos.
    assert (Hnot : os_name ≠ "darwin").
    { intros ->. repeat (apply elem_of_cons in Hos as [Hos|Hos];
                         [discriminate|]).
      by apply elem_of_nil in Hos. }
    unfold install_cmd. rewrite bool_decide_eq_false_2 by done. split.
    + case_bool_decide; discriminate.
    + intros ->. reflexivity.
Qed.

Lemma check_system_dependencies_missing_witness :
  check_system_dependencies (λ _, Some "/usr/bin/tool") "posix" = None
  ∧ install_cmd "posix" ≠ "brew install poppler tesseract"
  ∧ install_cmd "posix" = "sudo apt-get install poppler-utils tesseract-ocr".
Proof.
  destruct (check_system_dependencies_missing (λ _, Some "/usr/bin/tool") "posix")
    as (Hfound & _ & Hos).
  destruct Hos as [Hbrew Hapt].
  - apply list_elem_of_here.
  - split; [|split; [exact Hbrew | exact (Hapt eq_refl)]].
    apply Hfound. split; reflexivity.
Defined.
